(** * CSI receiver (src/main/reciv.c): ring buffer, capture callback, USB drain

    A shallow embedding of the capture-to-buffer-to-transport pipeline of
    [reciv.c]: the packed frame header, the global byte ring [g_buffer] with
    its two cursors, the CSI callback [wifi_csi_cb] that appends frames and
    the loop body of [usb_flush_task] that drains them.

    Conventions.
    - C integers are [Z] with the wrap-around of their type written out
      ([u16], [u32], [s8]); a byte is a [Z] in [0, 256).
    - [g_buffer] is a [list Z]; a copy is a splice of the list.  A copy that
      would leave its source or destination is undefined behaviour in C and
      is a [Fault] here, so every statement about a resulting state is a
      statement about a defined execution.
    - The three compile-time constants the code is built around (the buffer
      capacity, the staging-chunk size and the minimum amount worth sending)
      are section variables; [BUFFER_SIZE], [CHUNK_SIZE] and [MIN_SEND] after
      the section are the values of the source.
    - The callback and the drain loop are interleaved at the granularity of
      whole invocations; preemption inside one is not modelled. *)

From Stdlib Require Import ZArith List Lia Bool.
From stdpp Require Import base list.
Import ListNotations.

Local Open Scope Z_scope.

(** ** Machine integers *)

Definition u8 (x : Z) : Z := x mod 2 ^ 8.
Definition u16 (x : Z) : Z := x mod 2 ^ 16.
Definition u32 (x : Z) : Z := x mod 2 ^ 32.
(** Conversion to [int8_t] (two's complement). *)
Definition s8 (x : Z) : Z := (x + 2 ^ 7) mod 2 ^ 8 - 2 ^ 7.

Definition is_byte (b : Z) : Prop := 0 <= b < 256.

(** ** Faults and the error monad *)

Inductive fault : Type :=
| StoreOutOfBounds (dst n : Z)   (* [n] bytes stored from index [dst] leave the array *)
| LoadOutOfBounds (src n : Z).   (* [n] bytes loaded from index [src] leave the source *)

Inductive result (A : Type) : Type :=
| Ok (a : A)
| Fault (f : fault).
Arguments Ok {A} a.
Arguments Fault {A} f.

#[global] Instance result_ret : MRet result := fun A a => Ok a.
#[global] Instance result_bind : MBind result := fun A B k r =>
  match r with
  | Ok a => k a
  | Fault f => Fault f
  end.

(** ** Byte copies *)

(** [memcpy(&dst[off], &src[from], n)]: the [n] bytes of [src] from index
    [from] replace those of [dst] from index [off]. *)
Definition memcpy (dst : list Z) (off : Z) (src : list Z) (from n : Z) : result (list Z) :=
  if negb ((0 <=? from) && (0 <=? n) && (from + n <=? Z.of_nat (length src))) then
    Fault (LoadOutOfBounds from n)
  else if negb ((0 <=? off) && (off + n <=? Z.of_nat (length dst))) then
    Fault (StoreOutOfBounds off n)
  else
    Ok (take (Z.to_nat off) dst
          ++ take (Z.to_nat n) (drop (Z.to_nat from) src)
          ++ drop (Z.to_nat (off + n)) dst).

(** [fast_copy_asm]: [n >> 2] whole words, then the [n & 3] bytes left.  Each
    of the two loops is taken as one block copy; the alignment of the word
    accesses is not modelled. *)
Definition fast_copy_asm (dst : list Z) (off : Z) (src : list Z) (n : Z) : result (list Z) :=
  let count := Z.shiftr n 2 in
  let remaining := Z.land n 3 in
  d ← memcpy dst off src 0 (4 * count);
  memcpy d (off + 4 * count) src (4 * count) remaining.

(** ** The frame header *)

Definition MAGIC_BYTE : Z := 0xFAFA.

Record packet_header_t : Type := {
  h_magic : Z;       (* uint16_t magic *)
  h_len : Z;         (* uint16_t len *)
  h_rssi : Z;        (* int8_t rssi *)
  h_channel : Z;     (* uint8_t channel *)
  h_timestamp : Z    (* uint32_t timestamp *)
}.

(** The struct is [packed]: its size is the sum of the field widths. *)
Definition sizeof_packet_header_t : Z := 2 + 2 + 1 + 1 + 4.

(** The [w] bytes of the two's-complement integer [x], least significant
    first (the byte order of the target, a RISC-V ESP32-C6). *)
Definition le_bytes (w : nat) (x : Z) : list Z :=
  map (fun k => Z.land (Z.shiftr x (8 * Z.of_nat k)) 255) (seq 0 w).

(** The object representation of a header: what [memcpy] and [fast_copy_asm]
    read from [&header]. *)
Definition header_bytes (h : packet_header_t) : list Z :=
  le_bytes 2 (h_magic h) ++ le_bytes 2 (h_len h) ++ le_bytes 1 (h_rssi h)
    ++ le_bytes 1 (h_channel h) ++ le_bytes 4 (h_timestamp h).

(** Reading an unsigned little-endian integer back, as an off-line decoder
    does at the fixed offsets of the header. *)
Fixpoint le_decode (bs : list Z) : Z :=
  match bs with
  | [] => 0
  | b :: bs' => b + 256 * le_decode bs'
  end.

(** ** The event descriptor handed to the callback *)

Record wifi_pkt_rx_ctrl_t : Type := {
  rssi : Z;      (* signed rssi : 8 *)
  channel : Z    (* unsigned channel *)
}.

(** [buf = None] is the null pointer; [len] is a [uint16_t]. *)
Record wifi_csi_info_t : Type := {
  rx_ctrl : wifi_pkt_rx_ctrl_t;
  buf : option (list Z);
  len : Z
}.

(** A descriptor as the driver delivers it: [len] is in the range of its type
    and counts the bytes at [buf]. *)
Definition info_wf (i : wifi_csi_info_t) : Prop :=
  0 <= len i < 2 ^ 16 /\
  forall p, buf i = Some p -> Z.of_nat (length p) = len i /\ Forall is_byte p.

(** ** Global state *)

Record state : Type := {
  g_buffer : list Z;
  g_write_head : Z;
  g_read_head : Z;
  g_packet_count : Z
}.

Section Ring.

Variable BUFFER_SIZE : Z.   (* #define BUFFER_SIZE *)
Variable CHUNK_SIZE : Z.    (* sizeof(chunk) in usb_flush_task *)
Variable MIN_SEND : Z.      (* the literal 1024 in usb_flush_task *)

(** The state at start-up: a zeroed array, both cursors and the counter 0. *)
Definition init : state :=
  {| g_buffer := repeat 0 (Z.to_nat BUFFER_SIZE);
     g_write_head := 0; g_read_head := 0; g_packet_count := 0 |}.

(** *** Capture callback *)

(** The guard of line 51: a null descriptor, a null payload or no payload. *)
Definition malformed (info : option wifi_csi_info_t) : bool :=
  match info with
  | None => true
  | Some i =>
      match buf i with
      | None => true
      | Some _ => len i =? 0
      end
  end.

Definition data_len (i : wifi_csi_info_t) : Z := u16 (len i).
Definition total_len (i : wifi_csi_info_t) : Z :=
  u16 (sizeof_packet_header_t + data_len i).
Definition next_head (st : state) (i : wifi_csi_info_t) : Z :=
  u32 (g_write_head st + total_len i) mod BUFFER_SIZE.

(** The header of lines 64-69; [now] is what [esp_timer_get_time] returns. *)
Definition make_header (i : wifi_csi_info_t) (now : Z) : packet_header_t :=
  {| h_magic := u16 MAGIC_BYTE;
     h_len := data_len i;
     h_rssi := s8 (rssi (rx_ctrl i));
     h_channel := u8 (channel (rx_ctrl i));
     h_timestamp := u32 now |}.

Definition wifi_csi_cb (st : state) (info : option wifi_csi_info_t) (now : Z) : result state :=
  match info with
  | None => Ok st
  | Some i =>
      match buf i with
      | None => Ok st
      | Some payload =>
          if len i =? 0 then Ok st
          else
            let count := u32 (g_packet_count st + 1) in
            if next_head st i =? g_read_head st then
              Ok {| g_buffer := g_buffer st;
                    g_write_head := g_write_head st;
                    g_read_head := g_read_head st;
                    g_packet_count := count |}
            else
              let header := header_bytes (make_header i now) in
              b ← (if u32 (g_write_head st + total_len i) <=? BUFFER_SIZE then
                     b1 ← fast_copy_asm (g_buffer st) (g_write_head st)
                            header sizeof_packet_header_t;
                     fast_copy_asm b1 (u32 (g_write_head st + sizeof_packet_header_t))
                       payload (data_len i)
                   else
                     memcpy (g_buffer st) (g_write_head st)
                       header 0 sizeof_packet_header_t);
              Ok {| g_buffer := b;
                    g_write_head := next_head st i;
                    g_read_head := g_read_head st;
                    g_packet_count := count |}
      end
  end.

(** *** Drain loop *)

(** Lines 114-116. *)
Definition available (st : state) : Z :=
  if g_read_head st <=? g_write_head st then
    u32 (g_write_head st - g_read_head st)
  else
    u32 (u32 (BUFFER_SIZE - g_read_head st) + g_write_head st).

(** Lines 119-120. *)
Definition send_len (st : state) : Z :=
  let n := if CHUNK_SIZE <? available st then CHUNK_SIZE else available st in
  if BUFFER_SIZE <? u32 (g_read_head st + n) then u32 (BUFFER_SIZE - g_read_head st) else n.

(** Line 121: the staging array after the copy, cut to the bytes offered. *)
Definition read_chunk (st : state) : result (list Z) :=
  c ← memcpy (repeat 0 (Z.to_nat CHUNK_SIZE)) 0 (g_buffer st) (g_read_head st) (send_len st);
  Ok (take (Z.to_nat (send_len st)) c).

(** One pass through the body of the [while (1)] of [usb_flush_task].
    [usb_serial_jtag_write_bytes] stands for the transport: given the bytes
    offered it answers how many it took (an [int]).  The result is the new
    state and the bytes that reached the transport.  The heartbeat line, which
    only reads [g_packet_count], and the sleep are left out. *)
Definition usb_flush_iter (usb_serial_jtag_write_bytes : list Z -> Z) (st : state)
  : result (state * list Z) :=
  if MIN_SEND <? available st then
    chunk ← read_chunk st;
    let written := usb_serial_jtag_write_bytes chunk in
    if 0 <? written then
      Ok ({| g_buffer := g_buffer st;
             g_write_head := g_write_head st;
             g_read_head := u32 (g_read_head st + written) mod BUFFER_SIZE;
             g_packet_count := g_packet_count st |},
          take (Z.to_nat written) chunk)
    else Ok (st, [])
  else Ok (st, []).

(** *** Schedules *)

Inductive event : Type :=
| Csi (info : option wifi_csi_info_t) (now : Z)   (* the driver calls [wifi_csi_cb] *)
| Flush (usb_serial_jtag_write_bytes : list Z -> Z).   (* one pass of the drain loop *)

Definition step (st : state) (e : event) : result (state * list Z) :=
  match e with
  | Csi info now => st' ← wifi_csi_cb st info now; Ok (st', [])
  | Flush tr => usb_flush_iter tr st
  end.

(** The state after a schedule and the byte stream the transport received. *)
Fixpoint run (st : state) (es : list event) : result (state * list Z) :=
  match es with
  | [] => Ok (st, [])
  | e :: es' =>
      '(st1, out1) ← step st e;
      '(st2, out2) ← run st1 es';
      Ok (st2, out1 ++ out2)
  end.

End Ring.

(** ** The constants of the source *)

Definition BUFFER_SIZE : Z := 1024 * 120.
Definition CHUNK_SIZE : Z := 8192.
Definition MIN_SEND : Z := 1024.

(** *** Bookkeeping over a schedule *)

(** The return the callback leaves through: the guard of line 51, the
    full test of line 62, or the end of the function after the copy. *)
Inductive outcome : Type := Ignored | Dropped | Stored.

Definition cb_outcome (cap : Z) (st : state) (info : option wifi_csi_info_t) : outcome :=
  match info with
  | None => Ignored
  | Some i =>
      if malformed info then Ignored
      else if next_head cap st i =? g_read_head st then Dropped
      else Stored
  end.

(** The bytes of the frame the callback is asked to store. *)
Definition frame_bytes (i : wifi_csi_info_t) (now : Z) : list Z :=
  header_bytes (make_header i now)
    ++ match buf i with
       | Some payload => take (Z.to_nat (data_len i)) payload
       | None => []
       end.

Record tally : Type := {
  n_ignored : Z;            (* malformed events *)
  n_dropped : Z;            (* frames refused by the full test *)
  n_stored : Z;             (* frames the callback went on to store *)
  stored_bytes : list Z     (* the frames stored, in order *)
}.

Definition tally_event (cap : Z) (st : state) (e : event) (t : tally) : tally :=
  match e with
  | Flush _ => t
  | Csi info now =>
      match cb_outcome cap st info with
      | Ignored =>
          {| n_ignored := n_ignored t + 1; n_dropped := n_dropped t;
             n_stored := n_stored t; stored_bytes := stored_bytes t |}
      | Dropped =>
          {| n_ignored := n_ignored t; n_dropped := n_dropped t + 1;
             n_stored := n_stored t; stored_bytes := stored_bytes t |}
      | Stored =>
          {| n_ignored := n_ignored t; n_dropped := n_dropped t;
             n_stored := n_stored t + 1;
             stored_bytes :=
               match info with
               | Some i => frame_bytes i now ++ stored_bytes t
               | None => stored_bytes t
               end |}
      end
  end.

(** What an observer of the callback would have counted along a schedule. *)
Fixpoint tally_run (cap chunk min_send : Z) (st : state) (es : list event) : tally :=
  match es with
  | [] => {| n_ignored := 0; n_dropped := 0; n_stored := 0; stored_bytes := [] |}
  | e :: es' =>
      tally_event cap st e
        match step cap chunk min_send st e with
        | Ok (st1, _) => tally_run cap chunk min_send st1 es'
        | Fault _ => {| n_ignored := 0; n_dropped := 0; n_stored := 0; stored_bytes := [] |}
        end
  end.

(** The forward cyclic distance from [a] to [b] in a ring of [cap] bytes. *)
Definition cyclic_distance (cap a b : Z) : Z := (b - a) mod cap.

(** A state the program can be in: the array has its declared size and both
    cursors index it. *)
Definition state_wf (cap : Z) (st : state) : Prop :=
  Z.of_nat (length (g_buffer st)) = cap /\
  0 <= g_write_head st < cap /\
  0 <= g_read_head st < cap /\
  0 <= g_packet_count st < 2 ^ 32.

(** The array after a successful copy of [bytes] to index [off]. *)
Definition splice (dst : list Z) (off : Z) (bytes : list Z) : list Z :=
  take (Z.to_nat off) dst ++ bytes
    ++ drop (Z.to_nat (off + Z.of_nat (length bytes))) dst.

Definition tally_add (a b : tally) : tally :=
  {| n_ignored := n_ignored a + n_ignored b;
     n_dropped := n_dropped a + n_dropped b;
     n_stored := n_stored a + n_stored b;
     stored_bytes := stored_bytes a ++ stored_bytes b |}.

(** A transport that takes all it is offered, and one that takes [k] bytes
    whatever it is offered. *)
Definition accept_all (c : list Z) : Z := Z.of_nat (length c).
Definition accept_only (k : Z) (c : list Z) : Z := k.

(** A descriptor with [n] payload bytes, all [b]. *)
Definition csi_event (n b : Z) : wifi_csi_info_t :=
  {| rx_ctrl := {| rssi := -40; channel := 6 |};
     buf := Some (repeat b (Z.to_nat n));
     len := n |}.

(** The events of a schedule that are invocations of the callback. *)
Definition is_csi (e : event) : bool :=
  match e with
  | Csi _ _ => true
  | Flush _ => false
  end.

(** What a schedule sent to the transport, and whether it ran to its end. *)
Definition sent (r : result (state * list Z)) : list Z :=
  match r with
  | Ok (_, out) => out
  | Fault _ => []
  end.

Definition final (r : result (state * list Z)) : option state :=
  match r with
  | Ok (st, _) => Some st
  | Fault _ => None
  end.

(** [a] is an initial segment of [b]. *)
Fixpoint is_prefix (a b : list Z) : bool :=
  match a, b with
  | [], _ => true
  | x :: a', y :: b' => (x =? y) && is_prefix a' b'
  | _ :: _, [] => false
  end.

(** ** The loops of [fast_copy_asm], store by store *)

(** [while (count--) *d++ = *s++;] with elements of [w] bytes: [d] and [s]
    are the indexes the two pointers stand at. *)
Fixpoint copy_units (w : Z) (count : nat) (dst : list Z) (d : Z) (src : list Z) (s : Z)
  : result (list Z) :=
  match count with
  | O => Ok dst
  | S count' =>
      dst' ← memcpy dst d src s w;
      copy_units w count' dst' (d + w) src (s + w)
  end.

(** Lines 39-46: [n >> 2] stores of a word, then [n & 3] stores of a byte
    from where the word loop stopped. *)
Definition fast_copy_asm_loops (dst : list Z) (off : Z) (src : list Z) (n : Z)
  : result (list Z) :=
  let count := Z.shiftr n 2 in
  d ← copy_units 4 (Z.to_nat count) dst off src 0;
  let remaining := Z.land n 3 in
  copy_units 1 (Z.to_nat remaining) d (off + 4 * count) src (4 * count).

(** ** The heartbeat of [usb_flush_task] *)

(** Lines 108-112: [now] is the tick count in milliseconds, a [uint32_t];
    the result is the packet count printed, if a line is printed, and the
    new value of [last_log]. *)
Definition heartbeat (count last_log now : Z) : option Z * Z :=
  if 2000 <? u32 (now - last_log) then (Some count, now) else (None, last_log).

(** One pass through the [while (1)] of [usb_flush_task], heartbeat
    included: the state of the ring, [last_log], the status line and the
    bytes that reached the transport. *)
Definition usb_flush_task_iter (cap chunk_size min_send : Z) (now : Z)
    (usb_serial_jtag_write_bytes : list Z -> Z) (st : state) (last_log : Z)
  : result (state * Z * option Z * list Z) :=
  let '(line, last_log') := heartbeat (g_packet_count st) last_log now in
  '(st', out) ← usb_flush_iter cap chunk_size min_send usb_serial_jtag_write_bytes st;
  Ok (st', last_log', line, out).

(** The times at which a status line is printed when the loop runs through
    the tick values [nows]. *)
Fixpoint heartbeat_times (last_log : Z) (nows : list Z) : list Z :=
  match nows with
  | [] => []
  | now :: nows' =>
      match heartbeat 0 last_log now with
      | (Some _, last_log') => now :: heartbeat_times last_log' nows'
      | (None, last_log') => heartbeat_times last_log' nows'
      end
  end.

(** ** Events a schedule may hold *)

(** A descriptor as the driver delivers it, with a payload short enough for
    the 16-bit frame size, and a transport that takes no more than it is
    offered. *)
Definition event_wf (e : event) : Prop :=
  match e with
  | Csi None _ => True
  | Csi (Some i) _ => info_wf i /\ sizeof_packet_header_t + len i < 2 ^ 16
  | Flush tr => forall c, tr c <= Z.of_nat (length c)
  end.

(** ** The packet generator (src/main/blaster.c) *)

Module Blaster.

Definition MAGIC_BYTE : Z := 0xFA.

(** [blast_payload_t], field by field. *)
Record blast_payload_t : Type := {
  magic0 : Z;   (* uint8_t magic[0] *)
  magic1 : Z;   (* uint8_t magic[1] *)
  seq : Z       (* uint32_t seq *)
}.

Section Task.

Variable ESP_OK : Z.   (* the esp_err_t of success *)

(** The payload as lines 46-49 set it up. *)
Definition payload_init : blast_payload_t :=
  {| magic0 := MAGIC_BYTE; magic1 := MAGIC_BYTE; seq := 0 |}.

(** One pass through the [while (1)] of [blaster_task]: [result] is what
    [esp_now_send] returned for the payload offered. *)
Definition blaster_iter (result : Z) (payload : blast_payload_t) : blast_payload_t :=
  if result =? ESP_OK then
    {| magic0 := magic0 payload; magic1 := magic1 payload; seq := u32 (seq payload + 1) |}
  else payload.

(** The loop run against the answers [results] of [esp_now_send]: the
    payloads offered, each with the answer it got, and the payload after. *)
Fixpoint blaster_loop (results : list Z) (payload : blast_payload_t)
  : list (blast_payload_t * Z) * blast_payload_t :=
  match results with
  | [] => ([], payload)
  | r :: results' =>
      let '(offered, final) := blaster_loop results' (blaster_iter r payload) in
      ((payload, r) :: offered, final)
  end.

(** [blaster_task]: the task deletes itself when the peer cannot be added,
    the program aborts when the rate cannot be set, and otherwise the loop
    runs. *)
Definition blaster_task (add_peer rate_config : Z) (results : list Z)
  : list (blast_payload_t * Z) :=
  if negb (add_peer =? ESP_OK) then []
  else if negb (rate_config =? ESP_OK) then []
  else fst (blaster_loop results payload_init).

(** The payloads that [esp_now_send] took. *)
Definition accepted (offered : list (blast_payload_t * Z)) : list blast_payload_t :=
  map fst (List.filter (fun pr => snd pr =? ESP_OK) offered).

End Task.

End Blaster.

(** ** Integer and copy lemmas *)

Lemma u32_small x : 0 <= x < 2 ^ 32 -> u32 x = x.
Proof. intros H. unfold u32. apply Z.mod_small. exact H. Qed.

Lemma u16_small x : 0 <= x < 2 ^ 16 -> u16 x = x.
Proof. intros H. unfold u16. apply Z.mod_small. exact H. Qed.

Lemma u32_range x : 0 <= u32 x < 2 ^ 32.
Proof. unfold u32. apply Z.mod_pos_bound. lia. Qed.

Lemma u32_succ_u32 x k : u32 (u32 x + k) = u32 (x + k).
Proof. unfold u32. rewrite Zplus_mod_idemp_l. reflexivity. Qed.

Lemma words_and_rest n : 0 <= n -> 4 * Z.shiftr n 2 + Z.land n 3 = n.
Proof.
  intros Hn. rewrite Z.shiftr_div_pow2 by lia.
  change 3 with (Z.ones 2). rewrite Z.land_ones by lia.
  change (2 ^ 2) with 4. pose proof (Z.div_mod n 4). lia.
Qed.

Lemma words_and_rest_bounds n :
  0 <= n -> 0 <= 4 * Z.shiftr n 2 /\ 0 <= Z.land n 3.
Proof.
  intros Hn. rewrite Z.shiftr_div_pow2 by lia.
  change 3 with (Z.ones 2). rewrite Z.land_ones by lia.
  change (2 ^ 2) with 4.
  pose proof (Z.mod_pos_bound n 4). pose proof (Z.div_pos n 4). lia.
Qed.

Lemma splice_length dst off bytes :
  0 <= off -> off + Z.of_nat (length bytes) <= Z.of_nat (length dst) ->
  length (splice dst off bytes) = length dst.
Proof.
  intros H0 H1. unfold splice.
  rewrite !length_app, length_take, length_drop. lia.
Qed.

Lemma memcpy_ok dst off src from n :
  0 <= from -> 0 <= n -> from + n <= Z.of_nat (length src) ->
  0 <= off -> off + n <= Z.of_nat (length dst) ->
  memcpy dst off src from n
  = Ok (splice dst off (take (Z.to_nat n) (drop (Z.to_nat from) src))).
Proof.
  intros Hf Hn Hs Ho Hd. unfold memcpy, splice.
  assert (E1 : (0 <=? from) && (0 <=? n) && (from + n <=? Z.of_nat (length src)) = true).
  { rewrite !andb_true_iff, !Z.leb_le. lia. }
  assert (E2 : (0 <=? off) && (off + n <=? Z.of_nat (length dst)) = true).
  { rewrite !andb_true_iff, !Z.leb_le. lia. }
  rewrite E1, E2. simpl. do 4 f_equal.
  rewrite length_take, length_drop. lia.
Qed.

Lemma memcpy_store_fault dst off src from n :
  0 <= from -> 0 <= n -> from + n <= Z.of_nat (length src) ->
  0 <= off -> Z.of_nat (length dst) < off + n ->
  memcpy dst off src from n = Fault (StoreOutOfBounds off n).
Proof.
  intros Hf Hn Hs Ho Hd. unfold memcpy.
  assert (E1 : (0 <=? from) && (0 <=? n) && (from + n <=? Z.of_nat (length src)) = true).
  { rewrite !andb_true_iff, !Z.leb_le. lia. }
  assert (E2 : (0 <=? off) && (off + n <=? Z.of_nat (length dst)) = false).
  { rewrite andb_false_iff, !Z.leb_gt. lia. }
  rewrite E1, E2. reflexivity.
Qed.

Lemma splice_splice dst off b1 b2 :
  0 <= off -> off + Z.of_nat (length b1) + Z.of_nat (length b2) <= Z.of_nat (length dst) ->
  splice (splice dst off b1) (off + Z.of_nat (length b1)) b2 = splice dst off (b1 ++ b2).
Proof.
  intros Ho Hd. unfold splice.
  rewrite length_app, Nat2Z.inj_add.
  rewrite take_app_ge by (rewrite length_take; lia).
  rewrite length_take.
  replace (Z.to_nat (off + Z.of_nat (length b1)) - Z.to_nat off `min` length dst)%nat
    with (length b1) by lia.
  rewrite take_app_length.
  rewrite drop_app_ge by (rewrite length_take; lia).
  rewrite length_take.
  rewrite drop_app_ge by lia.
  rewrite drop_drop.
  rewrite <- !app_assoc. do 4 f_equal. lia.
Qed.

Lemma memcpy_length dst off src from n d :
  memcpy dst off src from n = Ok d -> length d = length dst.
Proof.
  unfold memcpy.
  destruct ((0 <=? from) && (0 <=? n) && (from + n <=? Z.of_nat (length src))) eqn:E1;
    [|discriminate].
  destruct ((0 <=? off) && (off + n <=? Z.of_nat (length dst))) eqn:E2; [|discriminate].
  simpl. intros [= <-].
  rewrite !andb_true_iff, !Z.leb_le in E1, E2.
  rewrite !length_app, !length_take, length_drop, length_drop. lia.
Qed.

Lemma fast_copy_asm_length dst off src n d :
  fast_copy_asm dst off src n = Ok d -> length d = length dst.
Proof.
  unfold fast_copy_asm.
  destruct (memcpy dst off src 0 _) as [d1|] eqn:E1; [|discriminate].
  simpl. intros E2. apply memcpy_length in E1, E2. lia.
Qed.

(** On a destination and a source that hold the bytes, the word loop and the
    byte loop of [fast_copy_asm] together are one copy of [n] bytes. *)
Lemma fast_copy_asm_ok dst off src n :
  0 <= n -> n <= Z.of_nat (length src) ->
  0 <= off -> off + n <= Z.of_nat (length dst) ->
  fast_copy_asm dst off src n = Ok (splice dst off (take (Z.to_nat n) src)).
Proof.
  intros Hn Hs Ho Hd. unfold fast_copy_asm.
  pose proof (words_and_rest n Hn) as Hsum.
  pose proof (words_and_rest_bounds n Hn) as [Hw Hr].
  set (w := 4 * Z.shiftr n 2) in *. set (r := Z.land n 3) in *.
  rewrite memcpy_ok by lia. simpl. unfold mbind, result_bind.
  rewrite drop_0.
  assert (Lw : Z.of_nat (length (take (Z.to_nat w) src)) = w).
  { rewrite length_take. lia. }
  rewrite memcpy_ok; try lia.
  2:{ rewrite splice_length; rewrite ?Lw; lia. }
  f_equal.
  replace (off + w) with (off + Z.of_nat (length (take (Z.to_nat w) src))) by lia.
  rewrite splice_splice.
  2: lia.
  2:{ rewrite Lw, length_take, length_drop. lia. }
  f_equal.
  rewrite <- (take_drop (Z.to_nat w) (take (Z.to_nat n) src)).
  rewrite take_take. replace (Z.to_nat w `min` Z.to_nat n)%nat with (Z.to_nat w) by lia.
  f_equal. rewrite take_drop_commute.
  do 2 f_equal. lia.
Qed.

Lemma fast_copy_asm_store_fault dst off src n :
  0 <= n -> n <= Z.of_nat (length src) ->
  0 <= off -> Z.of_nat (length dst) < off + n ->
  exists a k, fast_copy_asm dst off src n = Fault (StoreOutOfBounds a k).
Proof.
  intros Hn Hs Ho Hd. unfold fast_copy_asm.
  pose proof (words_and_rest n Hn) as Hsum.
  pose proof (words_and_rest_bounds n Hn) as [Hw Hr].
  set (w := 4 * Z.shiftr n 2) in *. set (r := Z.land n 3) in *.
  destruct (Z_le_gt_dec (off + w) (Z.of_nat (length dst))) as [Hfit | Hover].
  - rewrite memcpy_ok by lia. simpl. unfold mbind, result_bind.
    rewrite memcpy_store_fault; try lia.
    + eauto.
    + rewrite splice_length; rewrite ?length_take, ?length_drop; lia.
  - rewrite memcpy_store_fault by lia. simpl. eauto.
Qed.

(** The word loop alone already leaves the array. *)
Lemma fast_copy_asm_words_fault dst off src n :
  0 <= n -> n <= Z.of_nat (length src) ->
  0 <= off -> Z.of_nat (length dst) < off + 4 * Z.shiftr n 2 ->
  fast_copy_asm dst off src n = Fault (StoreOutOfBounds off (4 * Z.shiftr n 2)).
Proof.
  intros Hn Hs Ho Hd. unfold fast_copy_asm.
  pose proof (words_and_rest n Hn) as Hsum.
  pose proof (words_and_rest_bounds n Hn) as [Hw Hr].
  rewrite memcpy_store_fault by lia. reflexivity.
Qed.

(** ** The header *)

Lemma header_bytes_length h : Z.of_nat (length (header_bytes h)) = sizeof_packet_header_t.
Proof. reflexivity. Qed.

Lemma land_255_byte x : is_byte (Z.land x 255).
Proof.
  unfold is_byte. change 255 with (Z.ones 8). rewrite Z.land_ones by lia.
  apply Z.mod_pos_bound. lia.
Qed.

Lemma le_bytes_are_bytes w x : Forall is_byte (le_bytes w x).
Proof.
  unfold le_bytes. apply Forall_forall. intros b Hb.
  apply list_elem_of_In, in_map_iff in Hb. destruct Hb as [k [<- _]]. apply land_255_byte.
Qed.

Lemma header_bytes_are_bytes h : Forall is_byte (header_bytes h).
Proof.
  unfold header_bytes. rewrite !Forall_app. repeat split; apply le_bytes_are_bytes.
Qed.

(** ** The capture callback, case by case *)

Section Callback.

Variable cap : Z.
Hypothesis cap_pos : 0 < cap.
Hypothesis cap_u32 : cap + 2 ^ 16 <= 2 ^ 32.

Lemma init_wf : state_wf cap (init cap).
Proof.
  unfold state_wf, init. simpl. rewrite repeat_length. lia.
Qed.

Lemma total_len_range i : 0 <= total_len i < 2 ^ 16.
Proof. unfold total_len, u16. apply Z.mod_pos_bound. lia. Qed.

Lemma data_len_wf i : info_wf i -> data_len i = len i.
Proof. intros [H _]. unfold data_len. apply u16_small. exact H. Qed.

Lemma total_len_small i :
  info_wf i -> sizeof_packet_header_t + len i < 2 ^ 16 ->
  total_len i = sizeof_packet_header_t + len i.
Proof.
  intros Hi Hs. unfold total_len. rewrite (data_len_wf i Hi).
  destruct Hi as [Hi _]. apply u16_small. unfold sizeof_packet_header_t in *. lia.
Qed.

Lemma head_sum_u32 st i :
  state_wf cap st -> u32 (g_write_head st + total_len i) = g_write_head st + total_len i.
Proof.
  intros (_ & Hw & _). pose proof (total_len_range i). apply u32_small. lia.
Qed.

Lemma next_head_range st i : 0 <= next_head cap st i < cap.
Proof. unfold next_head. apply Z.mod_pos_bound. exact cap_pos. Qed.

Lemma next_head_wf st i :
  state_wf cap st -> next_head cap st i = (g_write_head st + total_len i) mod cap.
Proof. intros Hst. unfold next_head. rewrite head_sum_u32 by exact Hst. reflexivity. Qed.

Lemma cb_malformed st info now :
  malformed info = true -> wifi_csi_cb cap st info now = Ok st.
Proof.
  unfold malformed, wifi_csi_cb. destruct info as [i|]; [|reflexivity].
  destruct (buf i); [|reflexivity]. intros ->. reflexivity.
Qed.

Lemma cb_dropped st i p now :
  buf i = Some p -> len i <> 0 -> next_head cap st i = g_read_head st ->
  wifi_csi_cb cap st (Some i) now
  = Ok {| g_buffer := g_buffer st;
          g_write_head := g_write_head st;
          g_read_head := g_read_head st;
          g_packet_count := u32 (g_packet_count st + 1) |}.
Proof.
  intros Hb Hl Hn. unfold wifi_csi_cb. rewrite Hb.
  destruct (Z.eqb_spec (len i) 0) as [|_]; [contradiction|].
  rewrite Hn, Z.eqb_refl. reflexivity.
Qed.

(** The frame fits before the physical end: header and payload are stored
    one after the other from the write cursor. *)
Lemma cb_contiguous st i p now :
  state_wf cap st -> info_wf i -> buf i = Some p -> len i <> 0 ->
  sizeof_packet_header_t + len i < 2 ^ 16 ->
  next_head cap st i <> g_read_head st ->
  g_write_head st + sizeof_packet_header_t + len i <= cap ->
  wifi_csi_cb cap st (Some i) now
  = Ok {| g_buffer := splice (g_buffer st) (g_write_head st)
                        (header_bytes (make_header i now) ++ p);
          g_write_head := (g_write_head st + sizeof_packet_header_t + len i) mod cap;
          g_read_head := g_read_head st;
          g_packet_count := u32 (g_packet_count st + 1) |}.
Proof.
  intros Hst Hi Hb Hl Hs Hn Hfit.
  pose proof (total_len_small i Hi Hs) as Ht.
  pose proof (data_len_wf i Hi) as Hd.
  pose proof (next_head_wf st i Hst) as Hnh.
  pose proof (head_sum_u32 st i Hst) as Hsum.
  destruct Hst as (Hlen & Hw & Hr & _).
  destruct Hi as [Hrange Hp]. destruct (Hp p Hb) as [Hplen _].
  unfold wifi_csi_cb. rewrite Hb.
  destruct (Z.eqb_spec (len i) 0) as [|_]; [contradiction|].
  destruct (Z.eqb_spec (next_head cap st i) (g_read_head st)) as [|_]; [contradiction|].
  rewrite Hsum, Ht.
  destruct (Z.leb_spec (g_write_head st + (sizeof_packet_header_t + len i)) cap) as [_|]; [|lia].
  cbv zeta.
  pose proof (header_bytes_length (make_header i now)) as Hh.
  unfold sizeof_packet_header_t in *.
  rewrite fast_copy_asm_ok by lia.
  unfold mbind, result_bind.
  rewrite (u32_small (g_write_head st + _)) by lia.
  rewrite firstn_all2 by lia.
  rewrite fast_copy_asm_ok; rewrite ?splice_length; try lia.
  rewrite Hd, firstn_all2 by lia.
  replace (g_write_head st + (2 + 2 + 1 + 1 + 4))
    with (g_write_head st + Z.of_nat (length (header_bytes (make_header i now)))) by lia.
  rewrite splice_splice by lia.
  rewrite Hnh, Ht. do 2 f_equal. f_equal. lia.
Qed.

(** The frame does not fit, the header does: the header alone is stored. *)
Lemma cb_wrap st i p now :
  state_wf cap st -> buf i = Some p -> len i <> 0 ->
  next_head cap st i <> g_read_head st ->
  cap < g_write_head st + total_len i ->
  g_write_head st + sizeof_packet_header_t <= cap ->
  wifi_csi_cb cap st (Some i) now
  = Ok {| g_buffer := splice (g_buffer st) (g_write_head st)
                        (header_bytes (make_header i now));
          g_write_head := (g_write_head st + total_len i) mod cap;
          g_read_head := g_read_head st;
          g_packet_count := u32 (g_packet_count st + 1) |}.
Proof.
  intros Hst Hb Hl Hn Hover Hfit.
  pose proof (next_head_wf st i Hst) as Hnh.
  pose proof (head_sum_u32 st i Hst) as Hsum.
  destruct Hst as (Hlen & Hw & Hr & _).
  unfold wifi_csi_cb. rewrite Hb.
  destruct (Z.eqb_spec (len i) 0) as [|_]; [contradiction|].
  destruct (Z.eqb_spec (next_head cap st i) (g_read_head st)) as [|_]; [contradiction|].
  rewrite Hsum.
  destruct (Z.leb_spec (g_write_head st + total_len i) cap) as [|_]; [lia|].
  cbv zeta.
  pose proof (header_bytes_length (make_header i now)) as Hh.
  unfold sizeof_packet_header_t in *.
  rewrite memcpy_ok by lia.
  unfold mbind, result_bind. rewrite drop_0, firstn_all2 by lia.
  rewrite Hnh. reflexivity.
Qed.

(** Neither the frame nor its header fits: the copy of the header leaves the
    array. *)
Lemma cb_wrap_fault st i p now :
  state_wf cap st -> buf i = Some p -> len i <> 0 ->
  next_head cap st i <> g_read_head st ->
  cap < g_write_head st + total_len i ->
  cap < g_write_head st + sizeof_packet_header_t ->
  wifi_csi_cb cap st (Some i) now
  = Fault (StoreOutOfBounds (g_write_head st) sizeof_packet_header_t).
Proof.
  intros Hst Hb Hl Hn Hover Hfit.
  pose proof (head_sum_u32 st i Hst) as Hsum.
  destruct Hst as (Hlen & Hw & Hr & _).
  unfold wifi_csi_cb. rewrite Hb.
  destruct (Z.eqb_spec (len i) 0) as [|_]; [contradiction|].
  destruct (Z.eqb_spec (next_head cap st i) (g_read_head st)) as [|_]; [contradiction|].
  rewrite Hsum.
  destruct (Z.leb_spec (g_write_head st + total_len i) cap) as [|_]; [lia|].
  cbv zeta.
  pose proof (header_bytes_length (make_header i now)) as Hh.
  unfold sizeof_packet_header_t in *.
  rewrite memcpy_store_fault by lia.
  reflexivity.
Qed.

(** The 16-bit frame size has wrapped: the test of line 71 passes although
    the frame does not fit, and the copy of the payload leaves the array. *)
Lemma cb_truncated st i p now :
  state_wf cap st -> info_wf i -> buf i = Some p -> len i <> 0 ->
  next_head cap st i <> g_read_head st ->
  g_write_head st + total_len i <= cap ->
  g_write_head st + sizeof_packet_header_t <= cap ->
  cap < g_write_head st + sizeof_packet_header_t + 4 * Z.shiftr (data_len i) 2 ->
  wifi_csi_cb cap st (Some i) now
  = Fault (StoreOutOfBounds (g_write_head st + sizeof_packet_header_t)
             (4 * Z.shiftr (data_len i) 2)).
Proof.
  intros Hst Hi Hb Hl Hn Hfit Hhdr Hover.
  pose proof (data_len_wf i Hi) as Hd.
  pose proof (head_sum_u32 st i Hst) as Hsum.
  destruct Hst as (Hlen & Hw & Hr & _).
  destruct Hi as [Hrange Hp]. destruct (Hp p Hb) as [Hplen _].
  unfold wifi_csi_cb. rewrite Hb.
  destruct (Z.eqb_spec (len i) 0) as [|_]; [contradiction|].
  destruct (Z.eqb_spec (next_head cap st i) (g_read_head st)) as [|_]; [contradiction|].
  rewrite Hsum.
  destruct (Z.leb_spec (g_write_head st + total_len i) cap) as [_|]; [|lia].
  cbv zeta.
  pose proof (header_bytes_length (make_header i now)) as Hh.
  unfold sizeof_packet_header_t in *.
  rewrite fast_copy_asm_ok by lia.
  unfold mbind, result_bind.
  rewrite (u32_small (g_write_head st + _)) by lia.
  assert (Lspl : length (splice (g_buffer st) (g_write_head st)
                          (take (Z.to_nat (2 + 2 + 1 + 1 + 4))
                             (header_bytes (make_header i now))))
                 = length (g_buffer st)).
  { apply splice_length; rewrite ?length_take; lia. }
  rewrite fast_copy_asm_words_fault; rewrite ?Lspl; try lia.
  reflexivity.
Qed.

(** Whatever the callback does, a state it returns is again well formed. *)
Lemma cb_preserves_wf st info now st' :
  state_wf cap st -> wifi_csi_cb cap st info now = Ok st' -> state_wf cap st'.
Proof.
  intros Hst. pose proof Hst as (Hlen & Hw & Hr & Hc).
  pose proof (u32_range (g_packet_count st + 1)) as Hcount.
  unfold wifi_csi_cb.
  destruct info as [i|]; [|intros [= <-]; exact Hst].
  destruct (buf i) as [p|]; [|intros [= <-]; exact Hst].
  destruct (len i =? 0); [intros [= <-]; exact Hst|].
  destruct (next_head cap st i =? g_read_head st).
  { intros [= <-]. unfold state_wf. simpl. lia. }
  cbv zeta. pose proof (next_head_range st i) as Hnext.
  destruct (u32 (g_write_head st + total_len i) <=? cap).
  - destruct (fast_copy_asm (g_buffer st) _ _ _) as [b1|] eqn:E1; [|discriminate].
    simpl. destruct (fast_copy_asm b1 _ _ _) as [b2|] eqn:E2; [|discriminate].
    simpl. intros [= <-]. unfold state_wf. simpl.
    apply fast_copy_asm_length in E1, E2. lia.
  - destruct (memcpy (g_buffer st) _ _ _ _) as [b|] eqn:E; [|discriminate].
    simpl. intros [= <-]. unfold state_wf. simpl.
    apply memcpy_length in E. lia.
Qed.

End Callback.

(** ** The drain loop, step by step *)

Section Drain.

Variables cap chunk_size min_send : Z.
Hypothesis cap_pos : 0 < cap.
Hypothesis cap_u32 : 2 * cap <= 2 ^ 32.
Hypothesis chunk_nonneg : 0 <= chunk_size.

Lemma available_wf st :
  state_wf cap st ->
  available cap st = cyclic_distance cap (g_read_head st) (g_write_head st).
Proof.
  intros (_ & Hw & Hr & _). unfold available, cyclic_distance.
  destruct (Z.leb_spec (g_read_head st) (g_write_head st)).
  - rewrite u32_small by lia. symmetry. apply Z.mod_small. lia.
  - rewrite (u32_small (cap - _)) by lia. rewrite u32_small by lia.
    rewrite <- (Z_mod_plus_full _ 1 cap). symmetry.
    replace (g_write_head st - g_read_head st + 1 * cap)
      with (cap - g_read_head st + g_write_head st) by lia.
    apply Z.mod_small. lia.
Qed.

Lemma available_range st : state_wf cap st -> 0 <= available cap st < cap.
Proof.
  intros Hst. rewrite available_wf by exact Hst. apply Z.mod_pos_bound. exact cap_pos.
Qed.

Lemma send_len_wf st :
  state_wf cap st ->
  send_len cap chunk_size st
  = Z.min (Z.min chunk_size (available cap st)) (cap - g_read_head st).
Proof.
  intros Hst. pose proof (available_range st Hst) as Ha.
  destruct Hst as (_ & Hw & Hr & _). unfold send_len.
  destruct (Z.ltb_spec chunk_size (available cap st)).
  - rewrite (u32_small (g_read_head st + chunk_size)) by lia.
    destruct (Z.ltb_spec cap (g_read_head st + chunk_size)).
    + rewrite u32_small by lia. lia.
    + lia.
  - rewrite (u32_small (g_read_head st + _)) by lia.
    destruct (Z.ltb_spec cap (g_read_head st + available cap st)).
    + rewrite u32_small by lia. lia.
    + lia.
Qed.

Lemma send_len_bounds st :
  state_wf cap st ->
  0 <= send_len cap chunk_size st /\
  send_len cap chunk_size st <= chunk_size /\
  send_len cap chunk_size st <= available cap st /\
  g_read_head st + send_len cap chunk_size st <= cap.
Proof.
  intros Hst. rewrite send_len_wf by exact Hst.
  pose proof (available_range st Hst). destruct Hst as (_ & Hw & Hr & _). lia.
Qed.

(** The bytes a pass offers to the transport: the stretch of the array from
    the read cursor. *)
Lemma read_chunk_ok st :
  state_wf cap st ->
  read_chunk cap chunk_size st
  = Ok (take (Z.to_nat (send_len cap chunk_size st))
          (drop (Z.to_nat (g_read_head st)) (g_buffer st))).
Proof.
  intros Hst. pose proof (send_len_bounds st Hst) as (H0 & Hc & Ha & He).
  destruct Hst as (Hlen & Hw & Hr & _). unfold read_chunk.
  rewrite memcpy_ok; rewrite ?repeat_length; try lia.
  unfold mbind, result_bind. f_equal. unfold splice. simpl.
  apply take_app_length'. rewrite length_take, length_drop. lia.
Qed.

Lemma read_chunk_length st c :
  state_wf cap st -> read_chunk cap chunk_size st = Ok c ->
  Z.of_nat (length c) = send_len cap chunk_size st.
Proof.
  intros Hst. pose proof (send_len_bounds st Hst) as (H0 & Hc & Ha & He).
  rewrite read_chunk_ok by exact Hst. intros [= <-].
  destruct Hst as (Hlen & Hw & Hr & _).
  rewrite length_take, length_drop. lia.
Qed.

(** A pass that sends: the read cursor moves by what the transport took and
    nothing else changes. *)
Lemma flush_sends tr st c :
  state_wf cap st -> min_send < available cap st ->
  read_chunk cap chunk_size st = Ok c ->
  0 <= tr c <= send_len cap chunk_size st ->
  usb_flush_iter cap chunk_size min_send tr st
  = Ok ({| g_buffer := g_buffer st;
           g_write_head := g_write_head st;
           g_read_head := (g_read_head st + tr c) mod cap;
           g_packet_count := g_packet_count st |},
        take (Z.to_nat (tr c)) c).
Proof.
  intros Hst Hmin Hc Hk. pose proof (send_len_bounds st Hst) as (H0 & Hcs & Ha & He).
  pose proof Hst as (Hlen & Hw & Hr & _).
  unfold usb_flush_iter.
  destruct (Z.ltb_spec min_send (available cap st)); [|lia].
  rewrite Hc. unfold mbind, result_bind.
  destruct (Z.ltb_spec 0 (tr c)).
  - rewrite u32_small by lia. reflexivity.
  - replace (tr c) with 0 by lia. rewrite Z.add_0_r, Z.mod_small by lia.
    simpl. rewrite take_0. destruct st; reflexivity.
Qed.


Lemma flush_preserves_wf tr st st' out :
  state_wf cap st ->
  usb_flush_iter cap chunk_size min_send tr st = Ok (st', out) -> state_wf cap st'.
Proof.
  intros Hst. pose proof Hst as (Hlen & Hw & Hr & Hc). unfold usb_flush_iter.
  destruct (min_send <? available cap st); [|intros [= <- _]; exact Hst].
  destruct (read_chunk cap chunk_size st) as [c|]; [|discriminate]. simpl.
  destruct (0 <? tr c); [|intros [= <- _]; exact Hst].
  intros [= <- _]. unfold state_wf. simpl.
  pose proof (Z.mod_pos_bound (u32 (g_read_head st + tr c)) cap cap_pos). lia.
Qed.

End Drain.

(** ** Schedules *)

Lemma concat_repeat_length (f : list Z) k :
  Z.of_nat (length (concat (repeat f k))) = Z.of_nat k * Z.of_nat (length f).
Proof.
  induction k as [|k IH]; [reflexivity|].
  cbn [repeat concat]. rewrite length_app. lia.
Qed.

Lemma splice_nil dst off : splice dst off [] = dst.
Proof.
  unfold splice. cbn [length app]. rewrite Z.add_0_r. apply take_drop.
Qed.

Section Schedules.

Variables cap chunk_size min_send : Z.
Hypothesis cap_pos : 0 < cap.
Hypothesis cap_u32 : cap + 2 ^ 16 <= 2 ^ 32.

Local Abbreviation run' := (run cap chunk_size min_send).
Local Abbreviation tally_run' := (tally_run cap chunk_size min_send).

Lemma run_app es1 es2 st st1 out1 :
  run' st es1 = Ok (st1, out1) ->
  run' st (es1 ++ es2)
  = '(st2, out2) ← run' st1 es2; Ok (st2, out1 ++ out2).
Proof.
  revert st out1. induction es1 as [|e es1 IH]; intros st out1.
  - intros [= <- <-]. simpl. destruct (run' st es2) as [[st2 out2]|]; reflexivity.
  - cbn [run app]. destruct (step cap chunk_size min_send st e) as [[sa oa]|]; [|discriminate].
    simpl. destruct (run' sa es1) as [[sb ob]|] eqn:E; [|discriminate].
    simpl. intros [= <- <-]. rewrite (IH _ _ E).
    destruct (run' sb es2) as [[st2 out2]|]; simpl; [|reflexivity].
    rewrite app_assoc. reflexivity.
Qed.

Lemma run_app_fault es1 es2 st f :
  run' st es1 = Fault f -> run' st (es1 ++ es2) = Fault f.
Proof.
  revert st. induction es1 as [|e es1 IH]; intros st; [discriminate|].
  cbn [run app]. destruct (step cap chunk_size min_send st e) as [[sa oa]|]; [|trivial].
  simpl. destruct (run' sa es1) as [[sb ob]|] eqn:E; [discriminate|].
  intros [= <-]. rewrite (IH _ E). reflexivity.
Qed.

Lemma tally_run_app es1 es2 st st1 out1 :
  run' st es1 = Ok (st1, out1) ->
  tally_run' st (es1 ++ es2) = tally_add (tally_run' st es1) (tally_run' st1 es2).
Proof.
  revert st out1. induction es1 as [|e es1 IH]; intros st out1.
  - intros [= <- <-]. simpl. destruct (tally_run' st es2); reflexivity.
  - cbn [run tally_run app].
    destruct (step cap chunk_size min_send st e) as [[sa oa]|]; [|discriminate].
    simpl. destruct (run' sa es1) as [[sb ob]|] eqn:E; [|discriminate].
    simpl. intros [= <- <-]. rewrite (IH _ _ E).
    destruct e as [info now|tr]; [|reflexivity].
    unfold tally_event, tally_add.
    destruct (cb_outcome cap st info); [| |destruct info];
      cbn [n_ignored n_dropped n_stored stored_bytes];
      f_equal; rewrite <- ?app_assoc; try reflexivity; lia.
Qed.

(** [k] equal frames stored one after the other, none reaching the physical
    end or the read cursor. *)
Lemma run_fill i p now (k : nat) :
  info_wf i -> buf i = Some p -> len i <> 0 ->
  sizeof_packet_header_t + len i < 2 ^ 16 ->
  forall st, state_wf cap st ->
  g_write_head st + Z.of_nat k * (sizeof_packet_header_t + len i) < cap ->
  g_read_head st <= g_write_head st \/
  g_write_head st + Z.of_nat k * (sizeof_packet_header_t + len i) < g_read_head st ->
  run' st (repeat (Csi (Some i) now) k)
  = Ok ({| g_buffer := splice (g_buffer st) (g_write_head st)
                         (concat (repeat (frame_bytes i now) k));
           g_write_head := g_write_head st + Z.of_nat k * (sizeof_packet_header_t + len i);
           g_read_head := g_read_head st;
           g_packet_count := u32 (g_packet_count st + Z.of_nat k) |}, [])
  /\ tally_run' st (repeat (Csi (Some i) now) k)
     = {| n_ignored := 0; n_dropped := 0; n_stored := Z.of_nat k;
          stored_bytes := concat (repeat (frame_bytes i now) k) |}.
Proof.
  intros Hi Hb Hl Hs.
  assert (Hframe : frame_bytes i now = header_bytes (make_header i now) ++ p).
  { unfold frame_bytes. rewrite Hb, (data_len_wf i Hi).
    destruct Hi as [_ Hp]. destruct (Hp p Hb) as [Hplen _].
    rewrite firstn_all2 by lia. reflexivity. }
  assert (Hflen : Z.of_nat (length (frame_bytes i now)) = sizeof_packet_header_t + len i).
  { rewrite Hframe, length_app, Nat2Z.inj_add, header_bytes_length.
    destruct Hi as [_ Hp]. destruct (Hp p Hb) as [-> _]. reflexivity. }
  induction k as [|k IH]; intros st Hst Hend Hrd.
  - cbn [repeat run tally_run concat]. rewrite splice_nil, Z.add_0_r, Z.add_0_r.
    rewrite u32_small by (destruct Hst as (_ & _ & _ & Hc); exact Hc).
    destruct st; split; reflexivity.
  - pose proof Hst as (Hlen & Hw & Hr & Hc).
    assert (Hpos : 0 < sizeof_packet_header_t + len i).
    { destruct Hi as [Hrange _]. unfold sizeof_packet_header_t. lia. }
    assert (Hnext : next_head cap st i = g_write_head st + (sizeof_packet_header_t + len i)).
    { rewrite next_head_wf by assumption. rewrite (total_len_small i Hi Hs).
      apply Z.mod_small. nia. }
    assert (Hne : next_head cap st i <> g_read_head st) by nia.
    assert (Hstep : wifi_csi_cb cap st (Some i) now
                    = Ok {| g_buffer := splice (g_buffer st) (g_write_head st) (frame_bytes i now);
                            g_write_head := g_write_head st + (sizeof_packet_header_t + len i);
                            g_read_head := g_read_head st;
                            g_packet_count := u32 (g_packet_count st + 1) |}).
    { rewrite (cb_contiguous cap) with (p := p) by (assumption || nia).
      rewrite Hframe. do 2 f_equal. rewrite <- Z.add_assoc. apply Z.mod_small. nia. }
    set (st1 := {| g_buffer := splice (g_buffer st) (g_write_head st) (frame_bytes i now);
                   g_write_head := g_write_head st + (sizeof_packet_header_t + len i);
                   g_read_head := g_read_head st;
                   g_packet_count := u32 (g_packet_count st + 1) |}) in *.
    assert (Hst1 : state_wf cap st1).
    { apply (cb_preserves_wf cap) with (st := st) (info := Some i) (now := now); assumption. }
    destruct (IH st1 Hst1) as [IHrun IHtally].
    { subst st1. cbn [g_write_head]. nia. }
    { subst st1. cbn [g_write_head g_read_head]. nia. }
    cbn [repeat run tally_run step concat]. rewrite Hstep.
    cbn [mbind result_bind]. rewrite IHrun, IHtally.
    subst st1. cbn [g_buffer g_write_head g_read_head g_packet_count mbind result_bind].
    split.
    + rewrite u32_succ_u32.
      replace (g_write_head st + (sizeof_packet_header_t + len i))
        with (g_write_head st + Z.of_nat (length (frame_bytes i now))) by lia.
      rewrite splice_splice by (rewrite ?concat_repeat_length, ?Hflen; nia).
      f_equal. f_equal. f_equal; [lia | f_equal; lia].
    + unfold tally_event, cb_outcome, malformed. rewrite Hb.
      destruct (Z.eqb_spec (len i) 0) as [|_]; [contradiction|].
      destruct (Z.eqb_spec (next_head cap st i) (g_read_head st)) as [|_]; [contradiction|].
      cbn [n_ignored n_dropped n_stored stored_bytes]. f_equal. lia.
Qed.

End Schedules.

(** ** Wire format of the header *)

Lemma le_decode_from x (w s : nat) :
  le_decode (map (fun k => Z.land (Z.shiftr x (8 * Z.of_nat k)) 255) (seq s w))
  = Z.shiftr x (8 * Z.of_nat s) mod 2 ^ (8 * Z.of_nat w).
Proof.
  revert s. induction w as [|w IH]; intros s.
  - simpl. rewrite Z.mod_1_r. reflexivity.
  - cbn [seq map le_decode]. rewrite IH.
    change 255 with (Z.ones 8). rewrite Z.land_ones by lia.
    replace (8 * Z.of_nat (S s)) with (8 * Z.of_nat s + 8) by lia.
    rewrite <- Z.shiftr_shiftr by lia.
    rewrite (Z.shiftr_div_pow2 _ 8) by lia.
    replace (2 ^ (8 * Z.of_nat (S w))) with (2 ^ 8 * 2 ^ (8 * Z.of_nat w)).
    2:{ rewrite <- Z.pow_add_r by lia. f_equal. lia. }
    rewrite Z.rem_mul_r by lia. reflexivity.
Qed.

Lemma le_decode_le_bytes w x : le_decode (le_bytes w x) = x mod 2 ^ (8 * Z.of_nat w).
Proof. unfold le_bytes. rewrite le_decode_from. rewrite Z.shiftr_0_r. reflexivity. Qed.

Lemma s8_u8 x : u8 (s8 x) = u8 x.
Proof.
  unfold u8, s8. rewrite Zminus_mod_idemp_l. f_equal. lia.
Qed.

Lemma s8_s8_u8 x : s8 (u8 x) = s8 x.
Proof.
  unfold u8, s8. f_equal. rewrite Zplus_mod_idemp_l. reflexivity.
Qed.

(** C10: the header written in front of every payload is exactly
    [sizeof(packet_header_t)] = 10 bytes with no padding; bytes 0-1 hold the
    magic 0xFAFA, bytes 2-3 the payload length [info->len] of the descriptor,
    byte 4 the signal strength (as a two's-complement byte), byte 5 the
    channel and bytes 6-9 the timestamp; the multi-byte fields are
    little-endian, so a reader that decodes them least significant byte first
    recovers the field values. *)
Theorem header_wire_format (i : wifi_csi_info_t) (now : Z) :
  let hb := header_bytes (make_header i now) in
  length hb = 10%nat /\
  Z.of_nat (length hb) = sizeof_packet_header_t /\
  Forall is_byte hb /\
  take 2 hb = [0xFA; 0xFA] /\
  le_decode (take 2 hb) = MAGIC_BYTE /\
  take 2 (drop 2 hb) = [len i mod 256; len i / 2 ^ 8 mod 256] /\
  le_decode (take 2 (drop 2 hb)) = len i mod 2 ^ 16 /\
  (0 <= len i < 2 ^ 16 -> le_decode (take 2 (drop 2 hb)) = len i) /\
  take 1 (drop 4 hb) = [u8 (rssi (rx_ctrl i))] /\
  s8 (le_decode (take 1 (drop 4 hb))) = s8 (rssi (rx_ctrl i)) /\
  take 1 (drop 5 hb) = [u8 (channel (rx_ctrl i))] /\
  le_decode (take 4 (drop 6 hb)) = u32 now /\
  drop 6 hb = [u32 now mod 256; u32 now / 2 ^ 8 mod 256;
               u32 now / 2 ^ 16 mod 256; u32 now / 2 ^ 24 mod 256].
Proof.
  intros hb.
  assert (Hrssi : Z.land (s8 (rssi (rx_ctrl i))) 255 = u8 (rssi (rx_ctrl i))).
  { change 255 with (Z.ones 8). rewrite Z.land_ones by lia. apply s8_u8. }
  assert (Hchan : Z.land (u8 (channel (rx_ctrl i))) 255 = u8 (channel (rx_ctrl i))).
  { change 255 with (Z.ones 8). rewrite Z.land_ones by lia.
    unfold u8. apply Z.mod_mod. lia. }
  assert (Hts : forall k, 0 <= k ->
            Z.land (Z.shiftr (u32 now) k) 255 = u32 now / 2 ^ k mod 256).
  { intros k Hk. change 255 with (Z.ones 8). rewrite Z.land_ones by lia.
    rewrite Z.shiftr_div_pow2 by lia. reflexivity. }
  assert (Hlen : le_decode (take 2 (drop 2 hb)) = len i mod 2 ^ 16).
  { change (take 2 (drop 2 hb)) with (le_bytes 2 (data_len i)).
    rewrite le_decode_le_bytes. unfold data_len, u16. apply Z.mod_mod. lia. }
  split; [reflexivity|]. split; [reflexivity|].
  split; [apply header_bytes_are_bytes|].
  split; [reflexivity|]. split; [reflexivity|].
  split.
  { change (take 2 (drop 2 hb))
      with [Z.land (Z.shiftr (data_len i) (8 * 0)) 255; Z.land (Z.shiftr (data_len i) (8 * 1)) 255].
    change 255 with (Z.ones 8). rewrite !Z.land_ones by lia.
    rewrite !Z.shiftr_div_pow2 by lia.
    change (2 ^ (8 * 0)) with 1. rewrite Z.div_1_r.
    unfold data_len, u16. change (2 ^ 8) with 256. change (8 * 1) with 8.
    f_equal; [|f_equal].
    - change (2 ^ 16) with (256 * 256). rewrite Z.rem_mul_r by lia.
      rewrite (Z.mul_comm 256), Z.mod_add by lia. apply Z.mod_mod. lia.
    - change (2 ^ 16) with (256 * 256). rewrite Z.rem_mul_r by lia.
      rewrite (Z.mul_comm 256), Z.div_add by lia.
      rewrite (Z.div_small (len i mod 256)) by (apply Z.mod_pos_bound; lia).
      rewrite Z.add_0_l. apply Z.mod_mod. lia. }
  split; [exact Hlen|].
  split.
  { intros Hr. rewrite Hlen. apply Z.mod_small. exact Hr. }
  split.
  { change (take 1 (drop 4 hb)) with [Z.land (Z.shiftr (s8 (rssi (rx_ctrl i))) 0) 255].
    rewrite Z.shiftr_0_r, Hrssi. reflexivity. }
  split.
  { change (take 1 (drop 4 hb)) with [Z.land (Z.shiftr (s8 (rssi (rx_ctrl i))) 0) 255].
    rewrite Z.shiftr_0_r, Hrssi. cbn [le_decode]. rewrite Z.mul_0_r, Z.add_0_r.
    apply s8_s8_u8. }
  split.
  { change (take 1 (drop 5 hb)) with [Z.land (Z.shiftr (u8 (channel (rx_ctrl i))) 0) 255].
    rewrite Z.shiftr_0_r, Hchan. reflexivity. }
  split.
  { change (take 4 (drop 6 hb)) with (le_bytes 4 (u32 now)).
    rewrite le_decode_le_bytes. unfold u32. apply Z.mod_mod. lia. }
  change (drop 6 hb)
    with [Z.land (Z.shiftr (u32 now) (8 * 0)) 255; Z.land (Z.shiftr (u32 now) (8 * 1)) 255;
          Z.land (Z.shiftr (u32 now) (8 * 2)) 255; Z.land (Z.shiftr (u32 now) (8 * 3)) 255].
  rewrite !Hts by lia. change (2 ^ (8 * 0)) with 1. rewrite Z.div_1_r. reflexivity.
Qed.

Lemma header_wire_format_witness :
  let i := {| rx_ctrl := {| rssi := -40; channel := 6 |};
              buf := Some (repeat 7 300); len := 300 |} in
  0 <= len i < 2 ^ 16 /\
  header_bytes (make_header i 66051) = [250; 250; 44; 1; 216; 6; 3; 2; 1; 0] /\
  le_decode (take 2 (drop 2 (header_bytes (make_header i 66051)))) = len i.
Proof.
  intros i.
  assert (Hr : 0 <= len i < 2 ^ 16) by (cbn [len i]; lia).
  split; [exact Hr|]. split; [reflexivity|].
  exact (proj1 (proj2 (proj2 (proj2 (proj2 (proj2 (proj2 (proj2
           (header_wire_format i 66051)))))))) Hr).
Defined.

(** ** Malformed events *)

(** C8: when the callback is handed a null descriptor, a descriptor whose
    payload pointer is null, or one whose payload length is zero, it returns
    at once: buffer, cursors and counter are those it was entered with. *)
Theorem malformed_event_noop (cap : Z) (st : state) (info : option wifi_csi_info_t) (now : Z) :
  info = None \/ (exists i, info = Some i /\ (buf i = None \/ len i = 0)) ->
  wifi_csi_cb cap st info now = Ok st /\ cb_outcome cap st info = Ignored.
Proof.
  intros H.
  assert (Hm : malformed info = true).
  { destruct H as [-> | (i & -> & [Hb | Hl])]; [reflexivity| |].
    - unfold malformed. rewrite Hb. reflexivity.
    - unfold malformed. rewrite Hl. destruct (buf i); reflexivity. }
  split; [apply cb_malformed; exact Hm|].
  unfold cb_outcome. destruct info; [rewrite Hm|]; reflexivity.
Qed.

Lemma malformed_event_noop_witness :
  let st := {| g_buffer := [1; 2; 3; 4]; g_write_head := 1; g_read_head := 3;
               g_packet_count := 9 |} in
  let info := Some {| rx_ctrl := {| rssi := -40; channel := 6 |};
                      buf := Some [5; 6; 7]; len := 0 |} in
  (info = None \/ (exists i, info = Some i /\ (buf i = None \/ len i = 0))) /\
  wifi_csi_cb 4 st info 77 = Ok st /\ cb_outcome 4 st info = Ignored.
Proof.
  intros st info.
  assert (H : info = None \/ (exists i, info = Some i /\ (buf i = None \/ len i = 0))).
  { right. eexists. split; [reflexivity|]. right. reflexivity. }
  split; [exact H|]. exact (malformed_event_noop 4 st info 77 H).
Defined.

(** ** The drain loop *)



(** C7: when the transport takes [k] of the bytes a pass offers, with [k]
    less than the number offered (0 on a timeout), the read cursor advances
    by exactly [k] modulo the capacity, array and write cursor are untouched,
    [k] fewer bytes are available afterwards, and the bytes that were not
    taken are again at the head of what the next pass reads. *)
Theorem short_write_keeps_rest (cap chunk_size min_send : Z) (tr : list Z -> Z)
    (st : state) (c : list Z) :
  0 < cap -> 2 * cap <= 2 ^ 32 -> 0 <= chunk_size ->
  state_wf cap st ->
  min_send < available cap st ->
  read_chunk cap chunk_size st = Ok c ->
  0 <= tr c < Z.of_nat (length c) ->
  exists st',
    usb_flush_iter cap chunk_size min_send tr st = Ok (st', take (Z.to_nat (tr c)) c) /\
    g_read_head st' = (g_read_head st + tr c) mod cap /\
    g_read_head st' = g_read_head st + tr c /\
    g_write_head st' = g_write_head st /\
    g_buffer st' = g_buffer st /\
    g_packet_count st' = g_packet_count st /\
    available cap st' = available cap st - tr c /\
    exists c',
      read_chunk cap chunk_size st' = Ok c' /\
      take (length c - Z.to_nat (tr c)) c' = drop (Z.to_nat (tr c)) c.
Proof.
  intros Hcap Hu32 Hchunk Hst Hmin Hc Hk.
  pose proof (read_chunk_length cap chunk_size Hcap Hu32 Hchunk st c Hst Hc) as Hlenc.
  pose proof (send_len_bounds cap chunk_size Hcap Hu32 Hchunk st Hst) as (H0 & Hcs & Ha & He).
  pose proof (send_len_wf cap chunk_size Hcap Hu32 Hchunk st Hst) as Hsl.
  pose proof (available_wf cap Hu32 st Hst) as Hav.
  pose proof (available_range cap Hcap Hu32 st Hst) as Hrange.
  pose proof Hst as (Hlen & Hw & Hr & Hcount).
  set (k := tr c) in *.
  assert (Hrh : (g_read_head st + k) mod cap = g_read_head st + k)
    by (apply Z.mod_small; lia).
  set (st' := {| g_buffer := g_buffer st;
                 g_write_head := g_write_head st;
                 g_read_head := g_read_head st + k;
                 g_packet_count := g_packet_count st |}).
  assert (Hst' : state_wf cap st').
  { unfold state_wf, st'. cbn [g_buffer g_write_head g_read_head g_packet_count]. lia. }
  assert (Hav' : available cap st' = available cap st - k).
  { rewrite (available_wf cap Hu32 st' Hst'), Hav.
    unfold cyclic_distance, st'. cbn [g_write_head g_read_head].
    rewrite Hav in Ha, Hrange. unfold cyclic_distance in Ha, Hrange.
    symmetry. apply (Z.mod_unique_pos _ _ ((g_write_head st - g_read_head st) / cap)).
    - lia.
    - pose proof (Z.div_mod (g_write_head st - g_read_head st) cap). lia. }
  exists st'. split.
  { rewrite (flush_sends cap chunk_size min_send Hcap Hu32 Hchunk tr st c Hst Hmin Hc)
      by (fold k; lia).
    fold k. rewrite Hrh. reflexivity. }
  split; [symmetry; exact Hrh|]. split; [reflexivity|].
  split; [reflexivity|]. split; [reflexivity|]. split; [reflexivity|].
  split; [exact Hav'|].
  pose proof (read_chunk_ok cap chunk_size Hcap Hu32 Hchunk st' Hst') as Hc'.
  eexists. split; [exact Hc'|].
  pose proof (send_len_wf cap chunk_size Hcap Hu32 Hchunk st' Hst') as Hsl'.
  rewrite Hav' in Hsl'. change (g_read_head st') with (g_read_head st + k) in *.
  change (g_buffer st') with (g_buffer st).
  rewrite (read_chunk_ok cap chunk_size Hcap Hu32 Hchunk st Hst) in Hc.
  injection Hc as Hc.
  replace (length c) with (Z.to_nat (send_len cap chunk_size st)) by lia.
  rewrite <- Hc, take_take.
  replace ((Z.to_nat (send_len cap chunk_size st) - Z.to_nat k)
             `min` Z.to_nat (send_len cap chunk_size st'))%nat
    with (Z.to_nat (send_len cap chunk_size st) - Z.to_nat k)%nat by lia.
  replace (Z.to_nat (g_read_head st + k))
    with (Z.to_nat (g_read_head st) + Z.to_nat k)%nat by lia.
  rewrite <- drop_drop, take_drop_commute.
  do 2 f_equal. lia.
Qed.

Lemma short_write_keeps_rest_witness :
  let st := {| g_buffer := map (fun k => Z.of_nat k mod 256) (seq 0 1024);
               g_write_head := 250; g_read_head := 0; g_packet_count := 12 |} in
  let c := map Z.of_nat (seq 0 100) in
  (0 < 1024 /\ 2 * 1024 <= 2 ^ 32 /\ 0 <= 100 /\ state_wf 1024 st /\
   64 < available 1024 st /\ read_chunk 1024 100 st = Ok c /\
   0 <= accept_only 40 c < Z.of_nat (length c)) /\
  available 1024 st = 250 /\
  exists st',
    usb_flush_iter 1024 100 64 (accept_only 40) st = Ok (st', map Z.of_nat (seq 0 40)) /\
    g_read_head st' = 40 /\
    available 1024 st' = 210 /\
    exists c', read_chunk 1024 100 st' = Ok c' /\ take 60 c' = map Z.of_nat (seq 40 60).
Proof.
  intros st c.
  assert (Hst : state_wf 1024 st) by (vm_compute; intuition discriminate).
  assert (Hav : available 1024 st = 250) by reflexivity.
  assert (Hc : read_chunk 1024 100 st = Ok c) by reflexivity.
  assert (Hk : 0 <= accept_only 40 c < Z.of_nat (length c)) by (vm_compute; intuition discriminate).
  assert (Hmin : 64 < available 1024 st) by (rewrite Hav; lia).
  split; [repeat split; try lia; try apply Hst; try apply Hk; assumption|].
  split; [exact Hav|].
  destruct (short_write_keeps_rest 1024 100 64 (accept_only 40) st c
              ltac:(lia) ltac:(lia) ltac:(lia) Hst Hmin Hc Hk)
    as (st' & Hrun & _ & Hrh & _ & _ & _ & Hav' & c' & Hc' & Hrest).
  exists st'. split; [exact Hrun|]. split; [exact Hrh|].
  split; [rewrite Hav', Hav; reflexivity|].
  exists c'. split; [exact Hc'|]. exact Hrest.
Defined.

(** ** Reading a spliced array *)

Lemma splice_lookup_outside dst off bytes (j : nat) :
  0 <= off -> off + Z.of_nat (length bytes) <= Z.of_nat (length dst) ->
  Z.of_nat j < off \/ off + Z.of_nat (length bytes) <= Z.of_nat j ->
  splice dst off bytes !! j = dst !! j.
Proof.
  intros Ho Hd Hj. unfold splice. destruct Hj as [Hj | Hj].
  - rewrite lookup_app_l by (rewrite length_take; lia).
    apply lookup_take_lt. lia.
  - rewrite lookup_app_r by (rewrite length_take; lia).
    rewrite lookup_app_r by (rewrite length_take; lia).
    rewrite lookup_drop, length_take. f_equal. lia.
Qed.

Lemma splice_lookup_inside dst off bytes (j : nat) :
  0 <= off -> off + Z.of_nat (length bytes) <= Z.of_nat (length dst) ->
  off <= Z.of_nat j < off + Z.of_nat (length bytes) ->
  splice dst off bytes !! j = bytes !! (j - Z.to_nat off)%nat.
Proof.
  intros Ho Hd Hj. unfold splice.
  rewrite lookup_app_r by (rewrite length_take; lia).
  rewrite length_take.
  replace (Z.to_nat off `min` length dst)%nat with (Z.to_nat off) by lia.
  apply lookup_app_l. lia.
Qed.

(** ** Sample events and the constants of the source *)

Lemma csi_event_wf n b : 0 <= n < 2 ^ 16 -> is_byte b -> info_wf (csi_event n b).
Proof.
  intros Hn Hb. split; [exact Hn|].
  intros p [= <-]. rewrite repeat_length. cbn [len csi_event]. split; [lia|].
  apply Forall_forall. intros x Hx. apply list_elem_of_In, repeat_spec in Hx. subst x. exact Hb.
Qed.

Lemma BUFFER_SIZE_pos : 0 < BUFFER_SIZE.
Proof. reflexivity. Qed.

Lemma BUFFER_SIZE_u32 : BUFFER_SIZE + 2 ^ 16 <= 2 ^ 32.
Proof. discriminate. Qed.

Lemma repeat_snoc {A} (x : A) (k : nat) : repeat x (S k) = repeat x k ++ [x].
Proof. rewrite <- repeat_cons. reflexivity. Qed.

(** From start-up, [k] frames of [n] payload bytes each that together stay
    short of the end of the array lie one after the other from index 0. *)
Lemma reciv_fill (n b : Z) (k : nat) :
  0 < n -> sizeof_packet_header_t + n < 2 ^ 16 -> is_byte b ->
  Z.of_nat k * (sizeof_packet_header_t + n) < BUFFER_SIZE ->
  run BUFFER_SIZE CHUNK_SIZE MIN_SEND (init BUFFER_SIZE)
    (repeat (Csi (Some (csi_event n b)) 0) k)
  = Ok ({| g_buffer := splice (g_buffer (init BUFFER_SIZE)) 0
                         (concat (repeat (frame_bytes (csi_event n b) 0) k));
           g_write_head := Z.of_nat k * (sizeof_packet_header_t + n);
           g_read_head := 0;
           g_packet_count := u32 (Z.of_nat k) |}, [])
  /\ tally_run BUFFER_SIZE CHUNK_SIZE MIN_SEND (init BUFFER_SIZE)
       (repeat (Csi (Some (csi_event n b)) 0) k)
     = {| n_ignored := 0; n_dropped := 0; n_stored := Z.of_nat k;
          stored_bytes := concat (repeat (frame_bytes (csi_event n b) 0) k) |}.
Proof.
  intros Hn Hs Hb Hk.
  assert (Hwf : info_wf (csi_event n b)).
  { apply csi_event_wf; [unfold sizeof_packet_header_t in Hs; lia | exact Hb]. }
  apply (run_fill BUFFER_SIZE CHUNK_SIZE MIN_SEND BUFFER_SIZE_pos BUFFER_SIZE_u32
           (csi_event n b) (repeat b (Z.to_nat n)) 0 k Hwf eq_refl).
  - cbn [len csi_event]. lia.
  - exact Hs.
  - apply init_wf. exact BUFFER_SIZE_pos.
  - exact Hk.
  - left. cbn [init g_read_head g_write_head]. lia.
Qed.

Lemma run_preserves_wf cap chunk_size min_send es :
  0 < cap ->
  forall st st' out, state_wf cap st ->
  run cap chunk_size min_send st es = Ok (st', out) -> state_wf cap st'.
Proof.
  intros Hcap. induction es as [|e es IH]; intros st st' out Hst.
  - intros [= <- _]. exact Hst.
  - cbn [run]. destruct (step cap chunk_size min_send st e) as [[s1 o1]|] eqn:E1; [|discriminate].
    simpl. destruct (run cap chunk_size min_send s1 es) as [[s2 o2]|] eqn:E2; [|discriminate].
    simpl. intros [= <- _]. apply (IH s1 s2 o2); [|exact E2].
    destruct e as [info now|tr]; cbn [step] in E1.
    + destruct (wifi_csi_cb cap st info now) as [s|] eqn:E; [|discriminate].
      simpl in E1. injection E1 as <- _.
      apply (cb_preserves_wf cap Hcap st info now s Hst E).
    + apply (flush_preserves_wf cap chunk_size min_send Hcap tr st s1 o1 Hst E1).
Qed.

(** ** Overrun of the read cursor *)

(** The same, with the state kept abstract. *)
Lemma reciv_frames (n b : Z) (k : nat) :
  0 < n -> sizeof_packet_header_t + n < 2 ^ 16 -> is_byte b ->
  Z.of_nat k * (sizeof_packet_header_t + n) < BUFFER_SIZE ->
  exists st,
    run BUFFER_SIZE CHUNK_SIZE MIN_SEND (init BUFFER_SIZE)
      (repeat (Csi (Some (csi_event n b)) 0) k) = Ok (st, []) /\
    tally_run BUFFER_SIZE CHUNK_SIZE MIN_SEND (init BUFFER_SIZE)
      (repeat (Csi (Some (csi_event n b)) 0) k)
    = {| n_ignored := 0; n_dropped := 0; n_stored := Z.of_nat k;
         stored_bytes := concat (repeat (frame_bytes (csi_event n b) 0) k) |} /\
    state_wf BUFFER_SIZE st /\
    g_buffer st = splice (g_buffer (init BUFFER_SIZE)) 0
                    (concat (repeat (frame_bytes (csi_event n b) 0) k)) /\
    g_write_head st = Z.of_nat k * (sizeof_packet_header_t + n) /\
    g_read_head st = 0 /\
    g_packet_count st = u32 (Z.of_nat k).
Proof.
  intros Hn Hs Hb Hk.
  destruct (reciv_fill n b k Hn Hs Hb Hk) as [Hrun Htally].
  eexists. split; [exact Hrun|]. split; [exact Htally|].
  split.
  { apply (run_preserves_wf _ _ _ _ BUFFER_SIZE_pos _ _ _ (init_wf _ BUFFER_SIZE_pos) Hrun). }
  repeat split.
Qed.

Lemma is_byte_7 : is_byte 7.
Proof. unfold is_byte. lia. Qed.

(** The state of the program after 890 events of 128 payload bytes each and
    no drain: 890 frames of 138 bytes lie in the array, 60 bytes short of its
    end, and none has been read. *)
Lemma reciv_890_frames :
  exists st,
    run BUFFER_SIZE CHUNK_SIZE MIN_SEND (init BUFFER_SIZE)
      (repeat (Csi (Some (csi_event 128 7)) 0) 890) = Ok (st, []) /\
    state_wf BUFFER_SIZE st /\
    g_buffer st = splice (g_buffer (init BUFFER_SIZE)) 0
                    (concat (repeat (frame_bytes (csi_event 128 7) 0) 890)) /\
    g_write_head st = 122820 /\ g_read_head st = 0 /\ g_packet_count st = 890.
Proof.
  destruct (reciv_frames 128 7 890 ltac:(lia) ltac:(reflexivity) is_byte_7 ltac:(reflexivity))
    as (st & Hrun & _ & Hst & Hbuf & Hw & Hr & Hc).
  exists st. split; [exact Hrun|]. split; [exact Hst|]. split; [exact Hbuf|].
  split; [exact Hw|]. split; [exact Hr|]. exact Hc.
Qed.

(** The 891st event: its frame does not fit before the end of the array, nor
    in the 60 bytes that separate the write cursor from the read cursor going
    forward, and yet it is not refused. *)
Lemma reciv_frame_891 st now :
  state_wf BUFFER_SIZE st ->
  g_write_head st = 122820 -> g_read_head st = 0 ->
  cb_outcome BUFFER_SIZE st (Some (csi_event 128 7)) = Stored /\
  wifi_csi_cb BUFFER_SIZE st (Some (csi_event 128 7)) now
  = Ok {| g_buffer := splice (g_buffer st) 122820
                        (header_bytes (make_header (csi_event 128 7) now));
          g_write_head := 78;
          g_read_head := 0;
          g_packet_count := u32 (g_packet_count st + 1) |}.
Proof.
  intros Hst Hw Hr.
  assert (Hnext : next_head BUFFER_SIZE st (csi_event 128 7) = 78).
  { rewrite (next_head_wf BUFFER_SIZE BUFFER_SIZE_u32 st _ Hst), Hw. reflexivity. }
  split.
  - unfold cb_outcome. cbn [malformed csi_event buf len Z.eqb]. rewrite Hnext, Hr. reflexivity.
  - rewrite (cb_wrap BUFFER_SIZE BUFFER_SIZE_u32 st (csi_event 128 7)
               (repeat 7 (Z.to_nat 128)) now Hst eq_refl).
    + rewrite Hw, Hr. reflexivity.
    + cbn [len csi_event]. discriminate.
    + rewrite Hnext, Hr. discriminate.
    + rewrite Hw. reflexivity.
    + rewrite Hw. discriminate.
Qed.

(** C1 (the code departs from it): after 890 frames of 138 bytes and no
    drain the forward distance from the write cursor to the read cursor is
    60 bytes, less than the next frame; the callback stores that frame all the
    same and the write cursor passes the read cursor, so that 122820 unread
    bytes drop out of what the drain loop sees as available.  In a ring of
    1024 bytes fed 20-byte frames, the 52nd frame is not refused either: the
    callback goes on to copy its header to indexes 1020..1029. *)
Theorem overrun_not_refused :
  (exists st st',
     run BUFFER_SIZE CHUNK_SIZE MIN_SEND (init BUFFER_SIZE)
       (repeat (Csi (Some (csi_event 128 7)) 0) 890) = Ok (st, []) /\
     available BUFFER_SIZE st = 122820 /\
     cyclic_distance BUFFER_SIZE (g_write_head st) (g_read_head st) = 60 /\
     total_len (csi_event 128 7) = 138 /\
     cb_outcome BUFFER_SIZE st (Some (csi_event 128 7)) = Stored /\
     wifi_csi_cb BUFFER_SIZE st (Some (csi_event 128 7)) 0 = Ok st' /\
     g_write_head st' = 78 /\ g_read_head st' = 0 /\
     available BUFFER_SIZE st' = 78) /\
  (exists st,
     run 1024 CHUNK_SIZE MIN_SEND (init 1024)
       (repeat (Csi (Some (csi_event 10 7)) 0) 51) = Ok (st, []) /\
     g_write_head st = 1020 /\ g_read_head st = 0 /\
     cyclic_distance 1024 (g_write_head st) (g_read_head st) = 4 /\
     total_len (csi_event 10 7) = 20 /\
     cb_outcome 1024 st (Some (csi_event 10 7)) = Stored /\
     wifi_csi_cb 1024 st (Some (csi_event 10 7)) 0
     = Fault (StoreOutOfBounds 1020 sizeof_packet_header_t)).
Proof.
  split.
  - destruct reciv_890_frames as (st & Hrun & Hst & _ & Hw & Hr & _).
    destruct (reciv_frame_891 st 0 Hst Hw Hr) as [Hout Hcb].
    eexists st, _. split; [exact Hrun|].
    split; [unfold available; rewrite Hw, Hr; reflexivity|].
    split; [rewrite Hw, Hr; reflexivity|].
    split; [reflexivity|]. split; [exact Hout|]. split; [exact Hcb|].
    repeat split.
  - eexists. split; [vm_compute; reflexivity|]. repeat split.
Qed.

(** ** Stores outside the array *)

(** C3 (the code departs from it): 983 events of 115 payload bytes leave the
    write cursor at 122875, five bytes from the end of the 122880-byte array;
    on the next event the callback takes the wrap-around branch and copies
    the 10 header bytes from index 122875, so that indexes 122880..122884 lie
    outside the array. *)
Theorem header_store_out_of_bounds :
  (exists st,
     run BUFFER_SIZE CHUNK_SIZE MIN_SEND (init BUFFER_SIZE)
       (repeat (Csi (Some (csi_event 115 7)) 0) 983) = Ok (st, []) /\
     g_write_head st = 122875 /\ g_read_head st = 0 /\
     cb_outcome BUFFER_SIZE st (Some (csi_event 115 7)) = Stored /\
     BUFFER_SIZE < g_write_head st + total_len (csi_event 115 7) /\
     BUFFER_SIZE - sizeof_packet_header_t < g_write_head st /\
     wifi_csi_cb BUFFER_SIZE st (Some (csi_event 115 7)) 0
     = Fault (StoreOutOfBounds 122875 sizeof_packet_header_t)) /\
  run BUFFER_SIZE CHUNK_SIZE MIN_SEND (init BUFFER_SIZE)
    (repeat (Csi (Some (csi_event 115 7)) 0) 984)
  = Fault (StoreOutOfBounds 122875 sizeof_packet_header_t).
Proof.
  destruct (reciv_frames 115 7 983 ltac:(lia) ltac:(reflexivity) is_byte_7 ltac:(reflexivity))
    as (st & Hrun & _ & Hst & _ & Hw & Hr & _).
  change (Z.of_nat 983 * (sizeof_packet_header_t + 115)) with 122875 in Hw.
  assert (Hnext : next_head BUFFER_SIZE st (csi_event 115 7) = 120).
  { rewrite (next_head_wf BUFFER_SIZE BUFFER_SIZE_u32 st _ Hst), Hw. reflexivity. }
  assert (Hcb : wifi_csi_cb BUFFER_SIZE st (Some (csi_event 115 7)) 0
                = Fault (StoreOutOfBounds 122875 sizeof_packet_header_t)).
  { rewrite (cb_wrap_fault BUFFER_SIZE BUFFER_SIZE_u32 st (csi_event 115 7)
               (repeat 7 (Z.to_nat 115)) 0 Hst eq_refl).
    - rewrite Hw. reflexivity.
    - cbn [len csi_event]. discriminate.
    - rewrite Hnext, Hr. discriminate.
    - rewrite Hw. reflexivity.
    - rewrite Hw. reflexivity. }
  split.
  - exists st. split; [exact Hrun|]. split; [exact Hw|]. split; [exact Hr|].
    split.
    { unfold cb_outcome. cbn [malformed csi_event buf len Z.eqb]. rewrite Hnext, Hr. reflexivity. }
    split; [rewrite Hw; reflexivity|]. split; [rewrite Hw; reflexivity|]. exact Hcb.
  - rewrite (repeat_snoc (Csi (Some (csi_event 115 7)) 0) 983).
    rewrite (run_app _ _ _ _ _ _ _ _ Hrun).
    cbn [run step]. rewrite Hcb. reflexivity.
Qed.

(** ** A frame that does not fit before the end of the array *)

(** C2 (the code departs from it): after 800 frames of 125 bytes the write
    cursor is at 100000; an event of 65530 payload bytes is not refused and
    does not fit in the 22880 bytes left, so by the claim its header alone is
    stored and the write cursor advances by 65540 modulo the capacity, to
    42660.  The callback computes the frame size in 16 bits, (10 + 65530) mod
    65536 = 4, so the test of line 71 passes, the cursor is to advance by 4,
    and the branch taken copies the payload: its word loop stores 65528 bytes
    from index 100010 and leaves the array. *)
Theorem oversized_frame_payload_past_end :
  (exists st,
     run BUFFER_SIZE CHUNK_SIZE MIN_SEND (init BUFFER_SIZE)
       (repeat (Csi (Some (csi_event 115 7)) 0) 800) = Ok (st, []) /\
     g_write_head st = 100000 /\ g_read_head st = 0 /\
     info_wf (csi_event 65530 7) /\
     cb_outcome BUFFER_SIZE st (Some (csi_event 65530 7)) = Stored /\
     BUFFER_SIZE < g_write_head st + sizeof_packet_header_t + len (csi_event 65530 7) /\
     g_write_head st + sizeof_packet_header_t <= BUFFER_SIZE /\
     (g_write_head st + sizeof_packet_header_t + len (csi_event 65530 7)) mod BUFFER_SIZE
     = 42660 /\
     total_len (csi_event 65530 7) = 4 /\
     next_head BUFFER_SIZE st (csi_event 65530 7) = 100004 /\
     wifi_csi_cb BUFFER_SIZE st (Some (csi_event 65530 7)) 0
     = Fault (StoreOutOfBounds 100010 65528)) /\
  run BUFFER_SIZE CHUNK_SIZE MIN_SEND (init BUFFER_SIZE)
    (repeat (Csi (Some (csi_event 115 7)) 0) 800 ++ [Csi (Some (csi_event 65530 7)) 0])
  = Fault (StoreOutOfBounds 100010 65528).
Proof.
  destruct (reciv_frames 115 7 800 ltac:(lia) ltac:(reflexivity) is_byte_7 ltac:(reflexivity))
    as (st & Hrun & _ & Hst & _ & Hw & Hr & _).
  change (Z.of_nat 800 * (sizeof_packet_header_t + 115)) with 100000 in Hw.
  assert (Hwf : info_wf (csi_event 65530 7)).
  { apply csi_event_wf; [lia | exact is_byte_7]. }
  assert (Hnext : next_head BUFFER_SIZE st (csi_event 65530 7) = 100004).
  { rewrite (next_head_wf BUFFER_SIZE BUFFER_SIZE_u32 st _ Hst), Hw. reflexivity. }
  assert (Hcb : wifi_csi_cb BUFFER_SIZE st (Some (csi_event 65530 7)) 0
                = Fault (StoreOutOfBounds 100010 65528)).
  { rewrite (cb_truncated BUFFER_SIZE BUFFER_SIZE_u32 st (csi_event 65530 7)
               (repeat 7 (Z.to_nat 65530)) 0 Hst Hwf eq_refl).
    - rewrite Hw. reflexivity.
    - cbn [len csi_event]. discriminate.
    - rewrite Hnext, Hr. discriminate.
    - rewrite Hw. discriminate.
    - rewrite Hw. discriminate.
    - rewrite Hw. reflexivity. }
  split.
  - exists st. split; [exact Hrun|]. split; [exact Hw|]. split; [exact Hr|].
    split; [exact Hwf|].
    split.
    { unfold cb_outcome. cbn [malformed csi_event buf len Z.eqb]. rewrite Hnext, Hr. reflexivity. }
    split; [rewrite Hw; reflexivity|]. split; [rewrite Hw; discriminate|].
    split; [rewrite Hw; reflexivity|].
    split; [reflexivity|]. split; [exact Hnext|]. exact Hcb.
  - rewrite (run_app _ _ _ _ _ _ _ _ Hrun).
    cbn [run step]. rewrite Hcb. reflexivity.
Qed.

(** X17: the other branch of line 71.  When a frame that is not refused
    does not fit before the physical end of the array, its 16-bit size has
    not wrapped (at most 65525 payload bytes) and its header does fit, the
    callback copies the 10 header bytes to the write cursor and nothing else
    (every byte of the array outside those 10 is as before, so the payload
    is lost) and advances the write cursor by header size plus payload
    length, modulo the capacity. *)
Theorem wrap_stores_header_only (cap : Z) (st : state) (i : wifi_csi_info_t)
    (p : list Z) (now : Z) :
  0 < cap -> cap + 2 ^ 16 <= 2 ^ 32 ->
  state_wf cap st -> info_wf i -> buf i = Some p -> len i <> 0 ->
  sizeof_packet_header_t + len i < 2 ^ 16 ->
  next_head cap st i <> g_read_head st ->
  cap < g_write_head st + sizeof_packet_header_t + len i ->
  g_write_head st + sizeof_packet_header_t <= cap ->
  exists st',
    wifi_csi_cb cap st (Some i) now = Ok st' /\
    g_buffer st' = splice (g_buffer st) (g_write_head st) (header_bytes (make_header i now)) /\
    (forall j : nat,
       Z.of_nat j < g_write_head st \/
       g_write_head st + sizeof_packet_header_t <= Z.of_nat j ->
       g_buffer st' !! j = g_buffer st !! j) /\
    g_write_head st' = (g_write_head st + sizeof_packet_header_t + len i) mod cap /\
    g_read_head st' = g_read_head st /\
    g_packet_count st' = u32 (g_packet_count st + 1).
Proof.
  intros Hcap Hu32 Hst Hi Hb Hl Hs Hn Hover Hhdr.
  pose proof (total_len_small i Hi Hs) as Ht.
  eexists. split.
  { apply (cb_wrap cap Hu32 st i p now Hst Hb Hl Hn); [rewrite Ht; lia | exact Hhdr]. }
  cbn [g_buffer g_write_head g_read_head g_packet_count].
  split; [reflexivity|]. split.
  { intros j Hj. destruct Hst as (Hlen & Hw & _).
    apply splice_lookup_outside; rewrite ?header_bytes_length; lia. }
  split; [rewrite Ht; f_equal; lia|]. split; reflexivity.
Qed.

Lemma wrap_stores_header_only_witness :
  let st := {| g_buffer := repeat 0 1024; g_write_head := 1000; g_read_head := 1000;
               g_packet_count := 50 |} in
  let i := csi_event 30 7 in
  (0 < 1024 /\ 1024 + 2 ^ 16 <= 2 ^ 32 /\ state_wf 1024 st /\ info_wf i /\
   buf i = Some (repeat 7 30) /\ len i <> 0 /\ sizeof_packet_header_t + len i < 2 ^ 16 /\
   next_head 1024 st i <> g_read_head st /\
   1024 < g_write_head st + sizeof_packet_header_t + len i /\
   g_write_head st + sizeof_packet_header_t <= 1024) /\
  exists st',
    wifi_csi_cb 1024 st (Some i) 5 = Ok st' /\
    g_buffer st' = repeat 0 1000 ++ [250; 250; 30; 0; 216; 6; 5; 0; 0; 0] ++ repeat 0 14 /\
    g_write_head st' = 16 /\ g_read_head st' = 1000.
Proof.
  intros st i.
  assert (Hst : state_wf 1024 st) by (vm_compute; intuition discriminate).
  assert (Hi : info_wf i) by (apply csi_event_wf; [lia | exact is_byte_7]).
  assert (Hn : next_head 1024 st i <> g_read_head st) by (vm_compute; discriminate).
  assert (Hl : len i <> 0) by (vm_compute; discriminate).
  split.
  { split; [reflexivity|]. split; [discriminate|]. split; [exact Hst|].
    split; [exact Hi|]. split; [reflexivity|]. split; [exact Hl|].
    split; [reflexivity|]. split; [exact Hn|]. split; [reflexivity | discriminate]. }
  destruct (wrap_stores_header_only 1024 st i (repeat 7 30) 5
              ltac:(lia) ltac:(lia) Hst Hi eq_refl Hl ltac:(reflexivity) Hn
              ltac:(reflexivity) ltac:(discriminate))
    as (st' & Hcb & Hbuf & _ & Hw & Hr & _).
  exists st'. split; [exact Hcb|]. split; [rewrite Hbuf; reflexivity|].
  split; [rewrite Hw; reflexivity | rewrite Hr; reflexivity].
Defined.

(** ** A frame that is refused *)

(** C6 as stated fails where it has a drop counter incremented.  After 1023
    frames of 120 bytes and no drain nothing has been dropped and the one
    counter of the program stands at 1023.  The next frame of 120 bytes has
    no room (the forward distance from the write cursor to the read cursor
    is 120, which does not exceed it) and is refused: the state the callback
    leaves differs from the one it found in [g_packet_count] alone, which has
    gone up as it did for each of the 1023 frames stored. *)
Lemma refusal_claim_counterexample :
  let i := csi_event 110 7 in
  let es := repeat (Csi (Some i) 0) 1023 in
  let t := tally_run BUFFER_SIZE CHUNK_SIZE MIN_SEND (init BUFFER_SIZE) es in
  exists st,
    run BUFFER_SIZE CHUNK_SIZE MIN_SEND (init BUFFER_SIZE) es = Ok (st, []) /\
    n_dropped t = 0 /\ n_stored t = 1023 /\
    g_packet_count st = 1023 /\
    g_packet_count st <> n_dropped t /\
    total_len i = 120 /\
    cyclic_distance BUFFER_SIZE (g_write_head st) (g_read_head st) = 120 /\
    wifi_csi_cb BUFFER_SIZE st (Some i) 0
    = Ok {| g_buffer := g_buffer st;
            g_write_head := g_write_head st;
            g_read_head := g_read_head st;
            g_packet_count := 1024 |}.
Proof.
  intros i es t.
  destruct (reciv_frames 110 7 1023 ltac:(lia) ltac:(reflexivity) is_byte_7 ltac:(reflexivity))
    as (st & Hrun & Htally & Hst & _ & Hw & Hr & Hc).
  change (Z.of_nat 1023 * (sizeof_packet_header_t + 110)) with 122760 in Hw.
  change (u32 (Z.of_nat 1023)) with 1023 in Hc.
  exists st. split; [exact Hrun|].
  unfold t, es, i. rewrite Htally. cbn [n_dropped n_stored].
  split; [reflexivity|]. split; [reflexivity|]. split; [exact Hc|].
  split; [rewrite Hc; discriminate|].
  split; [reflexivity|].
  split; [rewrite Hw, Hr; reflexivity|].
  rewrite (cb_dropped BUFFER_SIZE st (csi_event 110 7) (repeat 7 (Z.to_nat 110)) 0 eq_refl).
  - rewrite Hc. reflexivity.
  - cbn [len csi_event]. discriminate.
  - rewrite (next_head_wf BUFFER_SIZE BUFFER_SIZE_u32 st _ Hst), Hw, Hr. reflexivity.
Qed.

(** C6, amended: when the callback refuses a frame, that is, returns
    without appending it (the write cursor is where it was, for a frame whose
    size is not a multiple of the capacity), the frame is dropped whole: no
    byte of the array and neither cursor has changed, and the callback has
    returned normally.  The program has no drop counter; the state differs
    only in [g_packet_count], which counts stored and refused frames alike
    and has gone up by one. *)
Theorem refused_frame_dropped_whole (cap : Z) (st st' : state) (i : wifi_csi_info_t)
    (now : Z) :
  cap + 2 ^ 16 <= 2 ^ 32 -> state_wf cap st ->
  malformed (Some i) = false ->
  total_len i mod cap <> 0 ->
  wifi_csi_cb cap st (Some i) now = Ok st' ->
  g_write_head st' = g_write_head st ->
  st' = {| g_buffer := g_buffer st;
           g_write_head := g_write_head st;
           g_read_head := g_read_head st;
           g_packet_count := u32 (g_packet_count st + 1) |}.
Proof.
  intros Hu32 Hst Hm Hmod Hcb Hsame.
  pose proof (next_head_wf cap Hu32 st i Hst) as Hnh.
  pose proof Hst as (_ & Hw & _).
  unfold malformed in Hm. unfold wifi_csi_cb in Hcb.
  destruct (buf i) as [p|]; [|discriminate].
  rewrite Hm in Hcb.
  destruct (Z.eqb_spec (next_head cap st i) (g_read_head st)) as [Heq | Hne].
  - injection Hcb as <-. reflexivity.
  - exfalso. cbv zeta in Hcb.
    match type of Hcb with
    | (?b ≫= _) = _ => destruct b as [x|]; [|discriminate]
    end.
    simpl in Hcb. injection Hcb as <-. cbn [g_write_head] in Hsame.
    rewrite Hnh in Hsame. apply Hmod.
    replace (total_len i) with (g_write_head st + total_len i - g_write_head st) by lia.
    rewrite Zminus_mod, Hsame, (Z.mod_small (g_write_head st)) by lia.
    rewrite Z.sub_diag. apply Z.mod_0_l. lia.
Qed.

Lemma refused_frame_dropped_whole_witness :
  let st := {| g_buffer := repeat 0 1024; g_write_head := 0; g_read_head := 20;
               g_packet_count := 3 |} in
  let i := csi_event 10 7 in
  exists st',
    (1024 + 2 ^ 16 <= 2 ^ 32 /\ state_wf 1024 st /\ malformed (Some i) = false /\
     total_len i mod 1024 <> 0 /\
     wifi_csi_cb 1024 st (Some i) 0 = Ok st' /\ g_write_head st' = g_write_head st) /\
    st' = {| g_buffer := repeat 0 1024; g_write_head := 0; g_read_head := 20;
             g_packet_count := 4 |}.
Proof.
  intros st i.
  assert (Hst : state_wf 1024 st) by (vm_compute; intuition discriminate).
  assert (Hmod : total_len i mod 1024 <> 0) by (vm_compute; discriminate).
  destruct (wifi_csi_cb 1024 st (Some i) 0) as [st'|] eqn:Hcb;
    [|vm_compute in Hcb; discriminate].
  assert (Hsame : g_write_head st' = g_write_head st).
  { vm_compute in Hcb. injection Hcb as <-. reflexivity. }
  exists st'. split.
  { split; [discriminate|]. split; [exact Hst|]. split; [reflexivity|].
    split; [exact Hmod|]. split; [reflexivity | exact Hsame]. }
  exact (refused_frame_dropped_whole 1024 st st' i 0
           ltac:(lia) Hst eq_refl Hmod Hcb Hsame).
Defined.

(** ** What the counter counts *)

Lemma cb_counts cap st info now st' :
  wifi_csi_cb cap st info now = Ok st' ->
  g_packet_count st'
  = match cb_outcome cap st info with
    | Ignored => g_packet_count st
    | Dropped | Stored => u32 (g_packet_count st + 1)
    end.
Proof.
  unfold wifi_csi_cb, cb_outcome, malformed.
  destruct info as [i|]; [|intros [= <-]; reflexivity].
  destruct (buf i) as [p|]; [|intros [= <-]; reflexivity].
  destruct (len i =? 0); [intros [= <-]; reflexivity|].
  destruct (next_head cap st i =? g_read_head st); [intros [= <-]; reflexivity|].
  cbv zeta.
  match goal with |- (?b ≫= _) = _ -> _ => destruct b as [x|]; [|discriminate] end.
  simpl. intros [= <-]. reflexivity.
Qed.

Lemma flush_keeps_count cap chunk_size min_send tr st st' out :
  usb_flush_iter cap chunk_size min_send tr st = Ok (st', out) ->
  g_packet_count st' = g_packet_count st.
Proof.
  unfold usb_flush_iter.
  destruct (min_send <? available cap st); [|intros [= <- _]; reflexivity].
  destruct (read_chunk cap chunk_size st) as [c|]; [|discriminate]. simpl.
  destruct (0 <? tr c); intros [= <- _]; reflexivity.
Qed.

(** C5 as stated fails on a malformed event: the callback leaves before the
    counter is touched, so the count of events seen, less the frames stored,
    is one short of the frames refused plus the malformed events. *)
Lemma drop_accounting_counterexample :
  let es := [Csi None 0] in
  let t := tally_run BUFFER_SIZE CHUNK_SIZE MIN_SEND (init BUFFER_SIZE) es in
  exists st,
    run BUFFER_SIZE CHUNK_SIZE MIN_SEND (init BUFFER_SIZE) es = Ok (st, []) /\
    g_packet_count st = 0 /\
    n_stored t = 0 /\ n_dropped t = 0 /\ n_ignored t = 1 /\
    g_packet_count st - n_stored t <> n_dropped t + n_ignored t.
Proof.
  intros es t. exists (init BUFFER_SIZE).
  split; [reflexivity|]. split; [reflexivity|].
  split; [reflexivity|]. split; [reflexivity|]. split; [reflexivity|].
  discriminate.
Qed.

(** C5, amended: the program keeps one counter, [g_packet_count].  The
    callback leaves it alone on a malformed event and otherwise increments it
    (modulo 2^32) before it decides whether to store the frame; there is no
    counter of the frames stored.  So after any schedule the counter has gone
    up by the number of frames refused plus the number of frames stored, and
    the malformed events are not in it. *)
Theorem packet_count_counts_well_formed (cap chunk_size min_send : Z) (es : list event) :
  forall st st' out,
  0 <= g_packet_count st < 2 ^ 32 ->
  run cap chunk_size min_send st es = Ok (st', out) ->
  g_packet_count st'
  = u32 (g_packet_count st
         + n_dropped (tally_run cap chunk_size min_send st es)
         + n_stored (tally_run cap chunk_size min_send st es)) /\
  n_ignored (tally_run cap chunk_size min_send st es)
  + n_dropped (tally_run cap chunk_size min_send st es)
  + n_stored (tally_run cap chunk_size min_send st es)
  = Z.of_nat (length (filter is_csi es)).
Proof.
  induction es as [|e es IH]; intros st st' out Hc.
  - intros [= <- _]. cbn [tally_run n_ignored n_dropped n_stored filter length].
    rewrite !Z.add_0_r. split; [symmetry; apply u32_small; exact Hc | reflexivity].
  - cbn [run tally_run].
    destruct (step cap chunk_size min_send st e) as [[s1 o1]|] eqn:E1; [|discriminate].
    simpl. destruct (run cap chunk_size min_send s1 es) as [[s2 o2]|] eqn:E2; [|discriminate].
    simpl. intros [= <- _].
    destruct e as [info now|tr]; cbn [step] in E1.
    + destruct (wifi_csi_cb cap st info now) as [s|] eqn:E; [|discriminate].
      simpl in E1. injection E1 as <- _.
      pose proof (cb_counts cap st info now s E) as Hs.
      assert (Hc1 : 0 <= g_packet_count s < 2 ^ 32).
      { rewrite Hs. destruct (cb_outcome cap st info); [exact Hc| |]; apply u32_range. }
      destruct (IH s s2 o2 Hc1 E2) as [IHc IHn].
      rewrite filter_cons. cbn [is_csi]. rewrite decide_True by exact I.
      cbn [length]. rewrite Nat2Z.inj_succ, <- IHn, IHc, Hs.
      unfold tally_event.
      destruct (cb_outcome cap st info); cbn [n_ignored n_dropped n_stored];
        rewrite <- ?Z.add_assoc, ?u32_succ_u32; split; try lia; f_equal; lia.
    + pose proof (flush_keeps_count cap chunk_size min_send tr st s1 o1 E1) as Hs.
      assert (Hc1 : 0 <= g_packet_count s1 < 2 ^ 32) by (rewrite Hs; exact Hc).
      destruct (IH s1 s2 o2 Hc1 E2) as [IHc IHn].
      rewrite filter_cons. cbn [is_csi]. rewrite decide_False by (intros []).
      cbn [tally_event]. rewrite IHc, Hs. split; [reflexivity | exact IHn].
Qed.

Lemma packet_count_counts_well_formed_witness :
  let es := [Csi None 0; Csi (Some (csi_event 10 7)) 1;
             Csi (Some (csi_event 994 7)) 2; Flush accept_all] in
  let t := tally_run 1024 100 64 (init 1024) es in
  exists st' out,
    (0 <= g_packet_count (init 1024) < 2 ^ 32 /\
     run 1024 100 64 (init 1024) es = Ok (st', out)) /\
    (n_ignored t = 1 /\ n_dropped t = 1 /\ n_stored t = 1) /\
    g_packet_count st' = 2 /\
    g_packet_count st' = u32 (g_packet_count (init 1024) + n_dropped t + n_stored t) /\
    n_ignored t + n_dropped t + n_stored t = Z.of_nat (length (filter is_csi es)).
Proof.
  intros es t.
  assert (Hc : 0 <= g_packet_count (init 1024) < 2 ^ 32) by (vm_compute; intuition discriminate).
  destruct (run 1024 100 64 (init 1024) es) as [[st' out]|] eqn:E.
  - exists st', out.
    destruct (packet_count_counts_well_formed 1024 100 64 es (init 1024) st' out Hc E)
      as [H1 H2].
    split; [split; [exact Hc | reflexivity]|].
    split; [split; [reflexivity | split; reflexivity]|].
    split; [rewrite H1; reflexivity|].
    split; [exact H1 | exact H2].
  - vm_compute in E. discriminate.
Defined.

(** ** Order of the drained bytes *)

Lemma is_prefix_spec a b : is_prefix a b = true <-> exists c, b = a ++ c.
Proof.
  revert b. induction a as [|x a IH]; intros b.
  - split; [intros _; exists b; reflexivity | reflexivity].
  - destruct b as [|y b]; cbn [is_prefix].
    + split; [discriminate | intros [c Hc]; discriminate].
    + rewrite andb_true_iff, Z.eqb_eq, IH. split.
      * intros [-> [c ->]]. exists c. reflexivity.
      * intros [c [= -> ->]]. split; [reflexivity | exists c; reflexivity].
Qed.

(** C4 (the code departs from it): 890 frames of 138 bytes are stored and
    drained in full; the 891st frame does not fit in the 60 bytes before the
    end of the array, so only its header is copied; seven more frames follow
    and the drain loop empties the ring.  All 898 frames were stored, and
    the transport received as many bytes as they hold, but not their bytes:
    the stream agrees with the frames up to the header of the 891st and then
    carries the zero that was in the array where the first payload byte, 7,
    should be. *)
Theorem wrap_breaks_fifo :
  let f := csi_event 128 7 in
  let es := repeat (Csi (Some f) 0) 890
              ++ repeat (Flush accept_all) 15 ++ repeat (Csi (Some f) 0) 8
              ++ repeat (Flush accept_all) 2 in
  let t := tally_run BUFFER_SIZE CHUNK_SIZE MIN_SEND (init BUFFER_SIZE) es in
  exists st out,
    run BUFFER_SIZE CHUNK_SIZE MIN_SEND (init BUFFER_SIZE) es = Ok (st, out) /\
    n_ignored t = 0 /\ n_dropped t = 0 /\ n_stored t = 898 /\
    stored_bytes t = concat (repeat (frame_bytes f 0) 898) /\
    available BUFFER_SIZE st = 0 /\
    Z.of_nat (length out) = 898 * 138 /\
    is_prefix (take (Z.to_nat 122830) out) (stored_bytes t) = true /\
    out !! Z.to_nat 122830 = Some 0 /\
    stored_bytes t !! Z.to_nat 122830 = Some 7 /\
    is_prefix out (stored_bytes t) = false.
Proof.
  intros f es t.
  destruct (reciv_fill 128 7 890 ltac:(lia) ltac:(reflexivity) is_byte_7 ltac:(reflexivity))
    as [Hrun Htally].
  pose proof (run_app _ _ _ _ (repeat (Flush accept_all) 15 ++ repeat (Csi (Some f) 0) 8
                                 ++ repeat (Flush accept_all) 2) _ _ _ Hrun) as Hrun2.
  pose proof (tally_run_app _ _ _ _ (repeat (Flush accept_all) 15 ++ repeat (Csi (Some f) 0) 8
                                       ++ repeat (Flush accept_all) 2) _ _ _ Hrun) as Ht.
  rewrite Htally in Ht. fold f es in Hrun2, Ht. fold t in Ht.
  match type of Hrun2 with
  | _ = mbind _ ?r => destruct r as [[st2 out2]|] eqn:E
  end.
  - assert (Hout : out2 = sent (run BUFFER_SIZE CHUNK_SIZE MIN_SEND _ _)) by (rewrite E; reflexivity).
    assert (Hfin : Some st2 = final (run BUFFER_SIZE CHUNK_SIZE MIN_SEND _ _)) by (rewrite E; reflexivity).
    exists st2, out2. split; [exact Hrun2|].
    assert (Hav : available BUFFER_SIZE st2 = 0).
    { assert (H : (available BUFFER_SIZE <$> Some st2) = Some 0)
        by (rewrite Hfin; vm_compute; reflexivity).
      injection H as H. exact H. }
    rewrite Ht, Hout.
    split; [vm_compute; reflexivity|]. split; [vm_compute; reflexivity|].
    split; [vm_compute; reflexivity|].
    split.
    { cbn [tally_add stored_bytes].
      change 898%nat with (890 + 8)%nat. rewrite repeat_app, concat_app.
      apply (f_equal (app (concat (repeat (frame_bytes f 0) 890)))).
      vm_compute. reflexivity. }
    split; [exact Hav|].
    split; [vm_compute; reflexivity|]. split; [vm_compute; reflexivity|].
    split; [vm_compute; reflexivity|]. split; vm_compute; reflexivity.
  - exfalso.
    assert (H : match final (run BUFFER_SIZE CHUNK_SIZE MIN_SEND _ _) with
                | Some _ => true
                | None => false
                end = false)
      by (rewrite E; reflexivity).
    vm_compute in H. discriminate.
Qed.

(** ** The loops of the fast copy *)

Lemma copy_units_ok w (count : nat) :
  0 <= w ->
  forall dst d src s,
  0 <= s -> s + w * Z.of_nat count <= Z.of_nat (length src) ->
  0 <= d -> d + w * Z.of_nat count <= Z.of_nat (length dst) ->
  copy_units w count dst d src s
  = Ok (splice dst d (take (Z.to_nat (w * Z.of_nat count)) (drop (Z.to_nat s) src))).
Proof.
  intros Hw. induction count as [|count IH]; intros dst d src s Hs Hsrc Hd Hdst.
  - cbn [copy_units]. rewrite Z.mul_0_r. cbn [Z.to_nat take]. rewrite splice_nil. reflexivity.
  - cbn [copy_units]. rewrite memcpy_ok by nia.
    cbn [mbind result_bind].
    assert (L1 : Z.of_nat (length (take (Z.to_nat w) (drop (Z.to_nat s) src))) = w).
    { rewrite length_take, length_drop. nia. }
    rewrite IH; rewrite ?splice_length; try nia.
    f_equal.
    replace (d + w) with (d + Z.of_nat (length (take (Z.to_nat w) (drop (Z.to_nat s) src))))
      at 1 by lia.
    rewrite splice_splice.
    + f_equal.
      replace (Z.to_nat (s + w)) with (Z.to_nat s + Z.to_nat w)%nat by lia.
      rewrite <- drop_drop, take_take_drop. f_equal. nia.
    + lia.
    + rewrite L1, length_take, length_drop. nia.
Qed.

(** X1: run store by store, the word loop and the byte loop of
    [fast_copy_asm] copy exactly the first [n] bytes of the source to the
    destination from [off], in order, whatever [n] is (no word at all when
    [n < 4], no byte when [n] is a multiple of 4, nothing when [n = 0]), and
    leave every other byte of the destination as it was; this is the one
    block copy the callback is modelled with. *)
Theorem fast_copy_asm_loops_copy dst off src n :
  0 <= n -> n <= Z.of_nat (length src) ->
  0 <= off -> off + n <= Z.of_nat (length dst) ->
  fast_copy_asm_loops dst off src n = Ok (splice dst off (take (Z.to_nat n) src)) /\
  fast_copy_asm_loops dst off src n = fast_copy_asm dst off src n /\
  (forall j : nat,
     Z.of_nat j < off \/ off + n <= Z.of_nat j ->
     splice dst off (take (Z.to_nat n) src) !! j = dst !! j) /\
  (forall j : nat,
     off <= Z.of_nat j < off + n ->
     splice dst off (take (Z.to_nat n) src) !! j = src !! (j - Z.to_nat off)%nat) /\
  (n = 0 -> fast_copy_asm_loops dst off src n = Ok dst).
Proof.
  intros Hn Hs Ho Hd.
  pose proof (words_and_rest n Hn) as Hsum.
  pose proof (words_and_rest_bounds n Hn) as [Hw Hr].
  assert (Lt : Z.of_nat (length (take (Z.to_nat n) src)) = n) by (rewrite length_take; lia).
  assert (Hloops : fast_copy_asm_loops dst off src n
                   = Ok (splice dst off (take (Z.to_nat n) src))).
  { unfold fast_copy_asm_loops.
    set (c := Z.shiftr n 2) in *. set (r := Z.land n 3) in *.
    assert (Hc : 0 <= c) by lia.
    rewrite copy_units_ok; rewrite ?Z2Nat.id; try lia.
    cbn [mbind result_bind]. rewrite drop_0.
    assert (L1 : Z.of_nat (length (take (Z.to_nat (4 * c)) src)) = 4 * c).
    { rewrite length_take. lia. }
    rewrite copy_units_ok; rewrite ?splice_length, ?Z2Nat.id; try lia.
    f_equal.
    replace (off + 4 * c) with (off + Z.of_nat (length (take (Z.to_nat (4 * c)) src))) by lia.
    rewrite splice_splice.
    - f_equal. rewrite Z.mul_1_l, take_take_drop. f_equal. lia.
    - lia.
    - rewrite L1, length_take, length_drop. lia. }
  split; [exact Hloops|].
  split; [rewrite Hloops; symmetry; apply fast_copy_asm_ok; lia|].
  split; [intros j Hj; apply splice_lookup_outside; lia|].
  split.
  - intros j Hj. rewrite splice_lookup_inside by lia.
    apply lookup_take_lt. lia.
  - intros ->. rewrite Hloops. cbn [Z.to_nat take]. rewrite splice_nil. reflexivity.
Qed.

Lemma fast_copy_asm_loops_copy_witness :
  (0 <= 7 /\ 7 <= Z.of_nat (length [1; 2; 3; 4; 5; 6; 7; 8]) /\
   0 <= 2 /\ 2 + 7 <= Z.of_nat (length (repeat 0 10))) /\
  fast_copy_asm_loops (repeat 0 10) 2 [1; 2; 3; 4; 5; 6; 7; 8] 7
  = Ok [0; 0; 1; 2; 3; 4; 5; 6; 7; 0].
Proof.
  split; [vm_compute; intuition discriminate|].
  destruct (fast_copy_asm_loops_copy (repeat 0 10) 2 [1; 2; 3; 4; 5; 6; 7; 8] 7)
    as [H _]; try (vm_compute; discriminate).
  rewrite H. reflexivity.
Defined.

(** ** More on the capture callback *)

Lemma splice_read_back dst off bytes :
  0 <= off -> off + Z.of_nat (length bytes) <= Z.of_nat (length dst) ->
  take (length bytes) (drop (Z.to_nat off) (splice dst off bytes)) = bytes.
Proof.
  intros Ho Hd. unfold splice.
  rewrite drop_app_length' by (rewrite length_take; lia).
  apply take_app_length.
Qed.

Lemma not_malformed_some i :
  malformed (Some i) = false -> exists p, buf i = Some p /\ len i <> 0.
Proof.
  unfold malformed. destruct (buf i) as [p|]; [|discriminate].
  intros H. exists p. split; [reflexivity|]. intros H0. rewrite H0 in H. discriminate.
Qed.

(** Where the callback leaves the cursors and the counter when it returns. *)
Lemma cb_cursors cap st info now st' :
  wifi_csi_cb cap st info now = Ok st' ->
  g_read_head st' = g_read_head st /\
  match info with
  | Some i =>
      cb_outcome cap st info = Stored -> g_write_head st' = next_head cap st i
  | None => True
  end /\
  (cb_outcome cap st info <> Stored ->
   g_write_head st' = g_write_head st /\ g_buffer st' = g_buffer st).
Proof.
  unfold wifi_csi_cb, cb_outcome, malformed.
  destruct info as [i|]; [|intros [= <-]; repeat split].
  destruct (buf i) as [p|]; [|intros [= <-]; split; [reflexivity|]; split; [discriminate|]; split; reflexivity].
  destruct (len i =? 0); [intros [= <-]; split; [reflexivity|]; split; [discriminate|]; split; reflexivity|].
  destruct (next_head cap st i =? g_read_head st).
  { intros [= <-]. split; [reflexivity|]. split; [discriminate|]. split; reflexivity. }
  cbv zeta.
  match goal with |- (?b ≫= _) = _ -> _ => destruct b as [x|]; [|discriminate] end.
  simpl. intros [= <-]. split; [reflexivity|]. split; [reflexivity|].
  intros H. contradiction.
Qed.

(** X2: a frame that is not refused and fits before the physical end of the
    array (at most 65525 payload bytes) is stored verbatim at the write
    cursor, header first and payload right behind it, so that the header's
    length field read back from the array is the payload length and the
    payload can be taken from the array by it; every byte of the array
    outside the frame is untouched, the write cursor advances by the frame
    size and the read cursor stays. *)
Theorem contiguous_frame_reads_back (cap : Z) (st : state) (i : wifi_csi_info_t)
    (p : list Z) (now : Z) :
  0 < cap -> cap + 2 ^ 16 <= 2 ^ 32 ->
  state_wf cap st -> info_wf i -> buf i = Some p -> len i <> 0 ->
  sizeof_packet_header_t + len i < 2 ^ 16 ->
  next_head cap st i <> g_read_head st ->
  g_write_head st + sizeof_packet_header_t + len i <= cap ->
  exists st',
    wifi_csi_cb cap st (Some i) now = Ok st' /\
    take (Z.to_nat (sizeof_packet_header_t + len i))
      (drop (Z.to_nat (g_write_head st)) (g_buffer st'))
    = header_bytes (make_header i now) ++ p /\
    le_decode (take 2 (drop (Z.to_nat (g_write_head st + 2)) (g_buffer st'))) = len i /\
    take (Z.to_nat (len i))
      (drop (Z.to_nat (g_write_head st + sizeof_packet_header_t)) (g_buffer st')) = p /\
    (forall j : nat,
       Z.of_nat j < g_write_head st \/
       g_write_head st + sizeof_packet_header_t + len i <= Z.of_nat j ->
       g_buffer st' !! j = g_buffer st !! j) /\
    g_write_head st' = (g_write_head st + sizeof_packet_header_t + len i) mod cap /\
    g_read_head st' = g_read_head st.
Proof.
  intros Hcap Hu32 Hst Hi Hb Hl Hs Hn Hfit.
  pose proof Hst as (Hlen & Hw & Hr & _).
  pose proof Hi as [Hrange Hp]. destruct (Hp p Hb) as [Hplen _].
  pose proof (header_bytes_length (make_header i now)) as Hh.
  set (hb := header_bytes (make_header i now)) in *.
  assert (Lf : Z.of_nat (length (hb ++ p)) = sizeof_packet_header_t + len i).
  { rewrite length_app. lia. }
  assert (Hread : take (Z.to_nat (sizeof_packet_header_t + len i))
                    (drop (Z.to_nat (g_write_head st))
                       (splice (g_buffer st) (g_write_head st) (hb ++ p))) = hb ++ p).
  { replace (Z.to_nat (sizeof_packet_header_t + len i)) with (length (hb ++ p)) by lia.
    apply splice_read_back; lia. }
  eexists. split; [apply (cb_contiguous cap Hu32 st i p now Hst Hi Hb Hl Hs Hn Hfit)|].
  cbn [g_buffer g_write_head g_read_head]. fold hb.
  split; [exact Hread|].
  assert (Hdrop : forall k, (k <= length (hb ++ p))%nat ->
            drop (Z.to_nat (g_write_head st) + k)
              (splice (g_buffer st) (g_write_head st) (hb ++ p))
            = drop k (hb ++ p)
                ++ drop (Z.to_nat (g_write_head st + Z.of_nat (length (hb ++ p)))) (g_buffer st)).
  { intros k Hk. unfold splice. rewrite <- drop_drop.
    rewrite drop_app_length' by (rewrite length_take; lia).
    apply drop_app_le. exact Hk. }
  split.
  { replace (Z.to_nat (g_write_head st + 2)) with (Z.to_nat (g_write_head st) + 2)%nat by lia.
    rewrite Hdrop by (unfold sizeof_packet_header_t in *; lia).
    change (take 2 (drop 2 (hb ++ p) ++ _)) with (le_bytes 2 (data_len i)).
    rewrite le_decode_le_bytes, (data_len_wf i Hi). apply Z.mod_small. exact Hrange. }
  split.
  { replace (Z.to_nat (g_write_head st + sizeof_packet_header_t))
      with (Z.to_nat (g_write_head st) + length hb)%nat by lia.
    rewrite Hdrop by (rewrite length_app; lia).
    rewrite drop_app_length. apply take_app_length'. lia. }
  split.
  { intros j Hj. apply splice_lookup_outside; lia. }
  split; reflexivity.
Qed.

Lemma contiguous_frame_reads_back_witness :
  let st := init 64 in
  let i := csi_event 4 7 in
  (0 < 64 /\ 64 + 2 ^ 16 <= 2 ^ 32 /\ state_wf 64 st /\ info_wf i /\
   buf i = Some [7; 7; 7; 7] /\ len i <> 0 /\ sizeof_packet_header_t + len i < 2 ^ 16 /\
   next_head 64 st i <> g_read_head st /\
   g_write_head st + sizeof_packet_header_t + len i <= 64) /\
  exists st',
    wifi_csi_cb 64 st (Some i) 258 = Ok st' /\
    take 14 (g_buffer st') = [250; 250; 4; 0; 216; 6; 2; 1; 0; 0; 7; 7; 7; 7] /\
    g_write_head st' = 14.
Proof.
  intros st i.
  assert (Hst : state_wf 64 st) by (apply init_wf; lia).
  assert (Hi : info_wf i) by (apply csi_event_wf; [lia | exact is_byte_7]).
  assert (Hl : len i <> 0) by discriminate.
  assert (Hn : next_head 64 st i <> g_read_head st) by discriminate.
  split.
  { split; [reflexivity|]. split; [discriminate|]. split; [exact Hst|].
    split; [exact Hi|]. split; [reflexivity|]. split; [exact Hl|].
    split; [reflexivity|]. split; [exact Hn | discriminate]. }
  destruct (contiguous_frame_reads_back 64 st i [7; 7; 7; 7] 258
              ltac:(lia) ltac:(lia) Hst Hi eq_refl Hl ltac:(reflexivity) Hn
              ltac:(discriminate))
    as (st' & Hcb & Hread & _ & _ & _ & Hw & _).
  exists st'. split; [exact Hcb|]. split; [exact Hread | exact Hw].
Defined.

(** X3: for a well-formed event of at most 65525 payload bytes the callback
    makes an out-of-bounds store in exactly one situation: the frame is not
    refused and fewer than 10 bytes are left between the write cursor and
    the physical end of the array; the store is then that of the header.
    In every other case the callback completes and leaves a well-formed
    state. *)
Theorem callback_faults_iff (cap : Z) (st : state) (i : wifi_csi_info_t) (now : Z) :
  0 < cap -> cap + 2 ^ 16 <= 2 ^ 32 ->
  state_wf cap st -> info_wf i -> sizeof_packet_header_t + len i < 2 ^ 16 ->
  ((exists f, wifi_csi_cb cap st (Some i) now = Fault f) <->
   (cb_outcome cap st (Some i) = Stored /\
    cap < g_write_head st + sizeof_packet_header_t)) /\
  (forall f, wifi_csi_cb cap st (Some i) now = Fault f ->
             f = StoreOutOfBounds (g_write_head st) sizeof_packet_header_t) /\
  (forall st', wifi_csi_cb cap st (Some i) now = Ok st' -> state_wf cap st').
Proof.
  intros Hcap Hu32 Hst Hi Hs.
  pose proof (total_len_small i Hi Hs) as Ht.
  pose proof Hi as [Hrange _].
  assert (Hcases :
    (cb_outcome cap st (Some i) <> Stored /\ exists st', wifi_csi_cb cap st (Some i) now = Ok st') \/
    (cb_outcome cap st (Some i) = Stored /\
     g_write_head st + sizeof_packet_header_t <= cap /\
     exists st', wifi_csi_cb cap st (Some i) now = Ok st') \/
    (cb_outcome cap st (Some i) = Stored /\
     cap < g_write_head st + sizeof_packet_header_t /\
     wifi_csi_cb cap st (Some i) now
     = Fault (StoreOutOfBounds (g_write_head st) sizeof_packet_header_t))).
  { destruct (malformed (Some i)) eqn:Hm.
    { left. split.
      - unfold cb_outcome. rewrite Hm. discriminate.
      - exists st. apply cb_malformed. exact Hm. }
    destruct (not_malformed_some i Hm) as (p & Hb & Hl).
    destruct (Z.eq_dec (next_head cap st i) (g_read_head st)) as [Heq | Hne].
    { left. split.
      - unfold cb_outcome. rewrite Hm, Heq, Z.eqb_refl. discriminate.
      - eexists. apply (cb_dropped cap st i p now Hb Hl Heq). }
    assert (Hout : cb_outcome cap st (Some i) = Stored).
    { unfold cb_outcome. rewrite Hm.
      destruct (Z.eqb_spec (next_head cap st i) (g_read_head st)); [contradiction | reflexivity]. }
    right.
    destruct (Z_le_gt_dec (g_write_head st + sizeof_packet_header_t + len i) cap) as [Hfit | Hover].
    { left. split; [exact Hout|]. split; [lia|].
      eexists. apply (cb_contiguous cap Hu32 st i p now Hst Hi Hb Hl Hs Hne Hfit). }
    destruct (Z_le_gt_dec (g_write_head st + sizeof_packet_header_t) cap) as [Hhdr | Hhdr].
    { left. split; [exact Hout|]. split; [exact Hhdr|].
      eexists. apply (cb_wrap cap Hu32 st i p now Hst Hb Hl Hne); [rewrite Ht; lia | exact Hhdr]. }
    right. split; [exact Hout|]. split; [lia|].
    apply (cb_wrap_fault cap Hu32 st i p now Hst Hb Hl Hne); [rewrite Ht; lia | lia]. }
  split; [split|split].
  - intros [f Hf].
    destruct Hcases as [[_ [s Hok]] | [(_ & _ & [s Hok]) | (Hout & Hend & _)]];
      [rewrite Hok in Hf; discriminate | rewrite Hok in Hf; discriminate | split; assumption].
  - intros [Hout Hend].
    destruct Hcases as [[Hno _] | [(_ & Hfit & _) | (_ & _ & Hflt)]];
      [contradiction | lia | eexists; exact Hflt].
  - intros f Hf.
    destruct Hcases as [[_ [s Hok]] | [(_ & _ & [s Hok]) | (_ & _ & Hflt)]];
      [rewrite Hok in Hf; discriminate | rewrite Hok in Hf; discriminate |].
    rewrite Hflt in Hf. injection Hf as <-. reflexivity.
  - intros st' Hok. apply (cb_preserves_wf cap Hcap st (Some i) now st' Hst Hok).
Qed.

Lemma callback_faults_iff_witness :
  let st := {| g_buffer := repeat 0 64; g_write_head := 60; g_read_head := 8;
               g_packet_count := 2 |} in
  let i := csi_event 4 7 in
  (0 < 64 /\ 64 + 2 ^ 16 <= 2 ^ 32 /\ state_wf 64 st /\ info_wf i /\
   sizeof_packet_header_t + len i < 2 ^ 16) /\
  wifi_csi_cb 64 st (Some i) 0 = Fault (StoreOutOfBounds 60 10).
Proof.
  intros st i.
  assert (Hst : state_wf 64 st) by (vm_compute; intuition discriminate).
  assert (Hi : info_wf i) by (apply csi_event_wf; [lia | exact is_byte_7]).
  split.
  { split; [reflexivity|]. split; [discriminate|]. split; [exact Hst|].
    split; [exact Hi | reflexivity]. }
  destruct (callback_faults_iff 64 st i 0 ltac:(lia) ltac:(lia) Hst Hi ltac:(reflexivity))
    as ([_ Hflt] & Hwhich & _).
  destruct Hflt as [f Hf]; [split; reflexivity|].
  rewrite Hf. f_equal. apply (Hwhich f Hf).
Defined.

(** X4: when the callback stores a frame, the number of bytes the drain loop
    sees as available becomes (available + frame size) modulo the capacity:
    it grows by the frame size when the frame had room, and comes out a full
    capacity short when the frame overran the read cursor. *)
Theorem available_after_store (cap : Z) (st st' : state) (i : wifi_csi_info_t) (now : Z) :
  0 < cap -> cap + 2 ^ 16 <= 2 ^ 32 -> 2 * cap <= 2 ^ 32 ->
  state_wf cap st ->
  cb_outcome cap st (Some i) = Stored ->
  wifi_csi_cb cap st (Some i) now = Ok st' ->
  available cap st' = (available cap st + total_len i) mod cap /\
  (available cap st + total_len i < cap ->
   available cap st' = available cap st + total_len i) /\
  (cap <= available cap st + total_len i -> total_len i <= cap ->
   available cap st' = available cap st + total_len i - cap).
Proof.
  intros Hcap Hu32 Hu32' Hst Hout Hcb.
  pose proof (cb_preserves_wf cap Hcap st (Some i) now st' Hst Hcb) as Hst'.
  destruct (cb_cursors cap st (Some i) now st' Hcb) as (Hr & Hw & _).
  specialize (Hw Hout).
  pose proof (available_range cap Hcap Hu32' st Hst) as Ha.
  pose proof (total_len_range i) as Ht.
  assert (Hmod : available cap st' = (available cap st + total_len i) mod cap).
  { rewrite (available_wf cap Hu32' st' Hst'), (available_wf cap Hu32' st Hst).
    unfold cyclic_distance. rewrite Hr, Hw, (next_head_wf cap Hu32 st i Hst).
    rewrite Zminus_mod_idemp_l, Zplus_mod_idemp_l. f_equal. lia. }
  split; [exact Hmod|]. split.
  - intros Hroom. rewrite Hmod. apply Z.mod_small. lia.
  - intros Hover Hle. rewrite Hmod.
    symmetry. apply (Z.mod_unique_pos _ _ 1); lia.
Qed.

Lemma available_after_store_witness :
  let st := {| g_buffer := repeat 0 64; g_write_head := 40; g_read_head := 50;
               g_packet_count := 2 |} in
  let i := csi_event 4 7 in
  exists st',
    (0 < 64 /\ 64 + 2 ^ 16 <= 2 ^ 32 /\ 2 * 64 <= 2 ^ 32 /\ state_wf 64 st /\
     cb_outcome 64 st (Some i) = Stored /\ wifi_csi_cb 64 st (Some i) 0 = Ok st') /\
    available 64 st = 54 /\ total_len i = 14 /\ available 64 st' = 4.
Proof.
  intros st i.
  assert (Hst : state_wf 64 st) by (vm_compute; intuition discriminate).
  destruct (wifi_csi_cb 64 st (Some i) 0) as [st'|] eqn:Hcb; [|vm_compute in Hcb; discriminate].
  exists st'.
  destruct (available_after_store 64 st st' i 0 ltac:(lia) ltac:(lia) ltac:(lia) Hst eq_refl Hcb)
    as (Hmod & _ & _).
  split.
  { split; [reflexivity|]. split; [discriminate|]. split; [discriminate|]. split; [exact Hst|].
    split; reflexivity. }
  split; [reflexivity|]. split; [reflexivity|]. rewrite Hmod. reflexivity.
Defined.

(** X5: each cursor has one writer.  Whatever the event, the callback leaves
    the read cursor as it found it; whatever the transport answers, a pass
    of the drain loop leaves the write cursor, the array and the packet
    counter as it found them. *)
Theorem single_writer (cap chunk_size min_send : Z) (st st1 st2 : state)
    (info : option wifi_csi_info_t) (now : Z) (tr : list Z -> Z) (out : list Z) :
  wifi_csi_cb cap st info now = Ok st1 ->
  usb_flush_iter cap chunk_size min_send tr st = Ok (st2, out) ->
  g_read_head st1 = g_read_head st /\
  g_write_head st2 = g_write_head st /\
  g_buffer st2 = g_buffer st /\
  g_packet_count st2 = g_packet_count st.
Proof.
  intros Hcb Hfl.
  split; [apply (cb_cursors cap st info now st1 Hcb)|].
  unfold usb_flush_iter in Hfl.
  destruct (min_send <? available cap st); [|injection Hfl as <- _; repeat split].
  destruct (read_chunk cap chunk_size st) as [c|]; [|discriminate]. simpl in Hfl.
  destruct (0 <? tr c); injection Hfl as <- _; repeat split.
Qed.

Lemma single_writer_witness :
  let st := {| g_buffer := [1; 2; 3; 4; 5; 6; 7; 8]; g_write_head := 6; g_read_head := 1;
               g_packet_count := 2 |} in
  exists st1 st2 out,
    (wifi_csi_cb 8 st (Some (csi_event 1 7)) 0 = Ok st1 /\
     usb_flush_iter 8 4 2 (accept_only 3) st = Ok (st2, out)) /\
    g_read_head st1 = 1 /\ g_read_head st2 = 4 /\ out = [2; 3; 4] /\
    g_write_head st2 = 6 /\ g_buffer st2 = [1; 2; 3; 4; 5; 6; 7; 8].
Proof.
  intros st.
  destruct (wifi_csi_cb 8 st (Some (csi_event 1 7)) 0) as [st1|] eqn:Hcb;
    [|vm_compute in Hcb; discriminate].
  destruct (usb_flush_iter 8 4 2 (accept_only 3) st) as [[st2 out]|] eqn:Hfl;
    [|vm_compute in Hfl; discriminate].
  exists st1, st2, out.
  destruct (single_writer 8 4 2 st st1 st2 _ 0 _ out Hcb Hfl) as (H1 & H2 & H3 & _).
  split; [split; reflexivity|].
  split; [exact H1|].
  vm_compute in Hfl. injection Hfl as <- <-.
  repeat split.
Defined.

(** ** More on the drain loop *)

(** X6: a pass of the drain loop is safe whatever the transport answers: on
    a well-formed state it reads only inside the array and writes only
    inside the staging array, ends in a well-formed state, and what reaches
    the transport is a stretch of the array that starts at the read cursor,
    does not cross the physical end and is no longer than the staging array
    or the bytes available; an answer of zero or less (a timeout, an error)
    changes nothing. *)
Theorem drain_pass_safe (cap chunk_size min_send : Z) (tr : list Z -> Z) (st : state) :
  0 < cap -> 2 * cap <= 2 ^ 32 -> 0 <= chunk_size ->
  state_wf cap st ->
  exists st' out,
    usb_flush_iter cap chunk_size min_send tr st = Ok (st', out) /\
    state_wf cap st' /\
    out = take (length out) (drop (Z.to_nat (g_read_head st)) (g_buffer st)) /\
    Z.of_nat (length out) <= chunk_size /\
    Z.of_nat (length out) <= available cap st /\
    g_read_head st + Z.of_nat (length out) <= cap /\
    ((forall c, tr c <= 0) -> st' = st /\ out = []).
Proof.
  intros Hcap Hu32 Hchunk Hst.
  pose proof (read_chunk_ok cap chunk_size Hcap Hu32 Hchunk st Hst) as Hc.
  pose proof (send_len_bounds cap chunk_size Hcap Hu32 Hchunk st Hst) as (H0 & Hcs & Ha & He).
  pose proof (available_range cap Hcap Hu32 st Hst) as Hav.
  pose proof Hst as (Hlen & Hw & Hr & Hcount).
  unfold usb_flush_iter. rewrite Hc. cbn [mbind result_bind].
  set (c := take (Z.to_nat (send_len cap chunk_size st))
              (drop (Z.to_nat (g_read_head st)) (g_buffer st))).
  destruct (min_send <? available cap st).
  2:{ exists st, []. split; [reflexivity|]. split; [exact Hst|]. split; [reflexivity|].
      cbn [length]. repeat split; lia. }
  destruct (Z.ltb_spec 0 (tr c)) as [Hpos | Hneg].
  2:{ exists st, []. split; [reflexivity|]. split; [exact Hst|]. split; [reflexivity|].
      cbn [length]. repeat split; lia. }
  eexists _, _. split; [reflexivity|].
  assert (Lc : Z.of_nat (length c) = send_len cap chunk_size st).
  { unfold c. rewrite length_take, length_drop. lia. }
  split.
  { unfold state_wf. cbn [g_buffer g_write_head g_read_head g_packet_count].
    pose proof (Z.mod_pos_bound (u32 (g_read_head st + tr c)) cap Hcap). lia. }
  split.
  { unfold c. rewrite !take_take, length_take, length_drop. f_equal. lia. }
  rewrite length_take.
  split; [lia|]. split; [lia|]. split; [lia|].
  intros Hall. specialize (Hall c). lia.
Qed.

Lemma drain_pass_safe_witness :
  let st := {| g_buffer := [1; 2; 3; 4; 5; 6; 7; 8]; g_write_head := 2; g_read_head := 5;
               g_packet_count := 2 |} in
  (0 < 8 /\ 2 * 8 <= 2 ^ 32 /\ 0 <= 4 /\ state_wf 8 st) /\
  available 8 st = 5 /\
  usb_flush_iter 8 4 2 (accept_only 100) st
  = Ok ({| g_buffer := [1; 2; 3; 4; 5; 6; 7; 8]; g_write_head := 2; g_read_head := 1;
           g_packet_count := 2 |}, [6; 7; 8]).
Proof.
  intros st.
  assert (Hst : state_wf 8 st) by (vm_compute; intuition discriminate).
  split; [split; [reflexivity|]; split; [discriminate|]; split; [discriminate | exact Hst]|].
  split; [reflexivity|].
  destruct (drain_pass_safe 8 4 2 (accept_only 100) st ltac:(lia) ltac:(lia) ltac:(lia) Hst)
    as (st' & out & Hrun & _).
  rewrite Hrun. vm_compute in Hrun. injection Hrun as <- <-. reflexivity.
Defined.

(** X7: with a transport that takes between nothing and all it is offered,
    a pass moves the read cursor by what was taken, modulo the capacity, and
    never past the write cursor: the bytes available drop by exactly the
    bytes sent.  A chunk taken in full up to the physical end of the array
    leaves the read cursor at 0. *)
Theorem drain_never_overtakes (cap chunk_size min_send : Z) (tr : list Z -> Z)
    (st st' : state) (out : list Z) :
  0 < cap -> 2 * cap <= 2 ^ 32 -> 0 <= chunk_size ->
  state_wf cap st ->
  (forall c, 0 <= tr c <= Z.of_nat (length c)) ->
  usb_flush_iter cap chunk_size min_send tr st = Ok (st', out) ->
  g_read_head st' = (g_read_head st + Z.of_nat (length out)) mod cap /\
  available cap st' = available cap st - Z.of_nat (length out) /\
  0 <= available cap st' /\
  (g_read_head st + Z.of_nat (length out) = cap -> g_read_head st' = 0).
Proof.
  intros Hcap Hu32 Hchunk Hst Htr Hrun.
  pose proof (read_chunk_ok cap chunk_size Hcap Hu32 Hchunk st Hst) as Hc.
  pose proof (send_len_bounds cap chunk_size Hcap Hu32 Hchunk st Hst) as (H0 & Hcs & Ha & He).
  pose proof (available_range cap Hcap Hu32 st Hst) as Hav.
  pose proof (available_wf cap Hu32 st Hst) as Havd.
  pose proof (flush_preserves_wf cap chunk_size min_send Hcap tr st st' out Hst Hrun) as Hst'.
  pose proof (available_range cap Hcap Hu32 st' Hst') as Hav'.
  pose proof Hst as (Hlen & Hw & Hr & Hcount).
  assert (Hsame : st' = st -> out = [] ->
            g_read_head st' = (g_read_head st + Z.of_nat (length out)) mod cap /\
            available cap st' = available cap st - Z.of_nat (length out) /\
            0 <= available cap st' /\
            (g_read_head st + Z.of_nat (length out) = cap -> g_read_head st' = 0)).
  { intros -> ->. cbn [length]. rewrite Z.add_0_r, Z.mod_small by lia.
    repeat split; lia. }
  unfold usb_flush_iter in Hrun. rewrite Hc in Hrun. cbn [mbind result_bind] in Hrun.
  set (c := take (Z.to_nat (send_len cap chunk_size st))
              (drop (Z.to_nat (g_read_head st)) (g_buffer st))) in *.
  assert (Lc : Z.of_nat (length c) = send_len cap chunk_size st).
  { unfold c. rewrite length_take, length_drop. lia. }
  specialize (Htr c).
  destruct (min_send <? available cap st);
    [|injection Hrun as <- <-; apply Hsame; reflexivity].
  destruct (Z.ltb_spec 0 (tr c)) as [Hpos | Hneg];
    [|injection Hrun as <- <-; apply Hsame; reflexivity].
  injection Hrun as Hs Ho.
  assert (Lo : Z.of_nat (length out) = tr c).
  { rewrite <- Ho, length_take. lia. }
  assert (Hrh : g_read_head st' = (g_read_head st + tr c) mod cap).
  { rewrite <- Hs. cbn [g_read_head]. rewrite u32_small by lia. reflexivity. }
  assert (Hwh : g_write_head st' = g_write_head st) by (rewrite <- Hs; reflexivity).
  rewrite Lo. split; [exact Hrh|].
  assert (Hav2 : available cap st' = available cap st - tr c).
  { rewrite (available_wf cap Hu32 st' Hst'), Havd. unfold cyclic_distance.
    rewrite Hrh, Hwh, Zminus_mod_idemp_r.
    rewrite Havd in Ha, Hav. unfold cyclic_distance in Ha, Hav.
    symmetry. apply (Z.mod_unique_pos _ _ ((g_write_head st - g_read_head st) / cap)).
    - lia.
    - pose proof (Z.div_mod (g_write_head st - g_read_head st) cap). lia. }
  split; [exact Hav2|]. split; [lia|].
  intros Hend. rewrite Hrh, Hend. apply Z_mod_same_full.
Qed.

Lemma drain_never_overtakes_witness :
  let st := {| g_buffer := [1; 2; 3; 4; 5; 6; 7; 8]; g_write_head := 2; g_read_head := 5;
               g_packet_count := 2 |} in
  exists st' out,
    (0 < 8 /\ 2 * 8 <= 2 ^ 32 /\ 0 <= 4 /\ state_wf 8 st /\
     (forall c, 0 <= accept_all c <= Z.of_nat (length c)) /\
     usb_flush_iter 8 4 2 accept_all st = Ok (st', out)) /\
    out = [6; 7; 8] /\ g_read_head st' = 0 /\ available 8 st = 5 /\ available 8 st' = 2.
Proof.
  intros st.
  assert (Hst : state_wf 8 st) by (vm_compute; intuition discriminate).
  assert (Htr : forall c, 0 <= accept_all c <= Z.of_nat (length c)) by (unfold accept_all; lia).
  destruct (usb_flush_iter 8 4 2 accept_all st) as [[st' out]|] eqn:Hrun;
    [|vm_compute in Hrun; discriminate].
  exists st', out.
  destruct (drain_never_overtakes 8 4 2 accept_all st st' out
              ltac:(lia) ltac:(lia) ltac:(lia) Hst Htr Hrun) as (Hrh & Hav & _ & _).
  split.
  { split; [reflexivity|]. split; [discriminate|]. split; [discriminate|].
    split; [exact Hst|]. split; [exact Htr | reflexivity]. }
  assert (Ho : out = [6; 7; 8]) by (vm_compute in Hrun; injection Hrun as _ <-; reflexivity).
  split; [exact Ho|]. rewrite Hav, Hrh, Ho. repeat split.
Defined.



(** ** First in, first out, as long as no frame reaches the physical end *)

Lemma frame_bytes_wf i p now :
  info_wf i -> buf i = Some p ->
  frame_bytes i now = header_bytes (make_header i now) ++ p /\
  Z.of_nat (length (frame_bytes i now)) = sizeof_packet_header_t + len i.
Proof.
  intros Hi Hb. pose proof (data_len_wf i Hi) as Hd.
  destruct Hi as [_ Hp]. destruct (Hp p Hb) as [Hplen _].
  unfold frame_bytes. rewrite Hb, Hd, firstn_all2 by lia.
  split; [reflexivity|]. rewrite length_app, Nat2Z.inj_add, header_bytes_length. lia.
Qed.

Lemma take_splice_end dst off bytes :
  0 <= off -> off + Z.of_nat (length bytes) <= Z.of_nat (length dst) ->
  take (Z.to_nat (off + Z.of_nat (length bytes))) (splice dst off bytes)
  = take (Z.to_nat off) dst ++ bytes.
Proof.
  intros Ho Hd. unfold splice. rewrite app_assoc.
  apply take_app_length'. rewrite length_app, length_take. lia.
Qed.

Lemma prefix_stretch (l s : list Z) (r k w : nat) :
  (r + k <= w)%nat -> (w <= length l)%nat ->
  take k (drop r l) = take k (drop r (take w l ++ s)).
Proof.
  intros Hk Hw.
  rewrite drop_app_le by (rewrite length_take; lia).
  rewrite take_app_le by (rewrite length_drop, length_take; lia).
  rewrite !take_drop_commute, take_take. do 2 f_equal. lia.
Qed.

(** A pass of the drain loop on a ring whose occupied part does not wrap. *)
Lemma flush_no_wrap cap chunk_size min_send tr st :
  0 < cap -> 2 * cap <= 2 ^ 32 -> 0 <= chunk_size ->
  state_wf cap st -> g_read_head st <= g_write_head st ->
  (forall c, tr c <= Z.of_nat (length c)) ->
  exists k,
    0 <= k <= g_write_head st - g_read_head st /\
    usb_flush_iter cap chunk_size min_send tr st
    = Ok ({| g_buffer := g_buffer st;
             g_write_head := g_write_head st;
             g_read_head := g_read_head st + k;
             g_packet_count := g_packet_count st |},
          take (Z.to_nat k) (drop (Z.to_nat (g_read_head st)) (g_buffer st))).
Proof.
  intros Hcap Hu32 Hchunk Hst Hle Htr.
  pose proof (read_chunk_ok cap chunk_size Hcap Hu32 Hchunk st Hst) as Hc.
  pose proof (send_len_bounds cap chunk_size Hcap Hu32 Hchunk st Hst) as (H0 & Hcs & Ha & He).
  pose proof (available_wf cap Hu32 st Hst) as Hav.
  pose proof Hst as (Hlen & Hw & Hr & Hcount).
  assert (Havv : available cap st = g_write_head st - g_read_head st).
  { rewrite Hav. unfold cyclic_distance. apply Z.mod_small. lia. }
  assert (Hstay : exists k,
            0 <= k <= g_write_head st - g_read_head st /\
            Ok (st, [])
            = Ok ({| g_buffer := g_buffer st;
                     g_write_head := g_write_head st;
                     g_read_head := g_read_head st + k;
                     g_packet_count := g_packet_count st |},
                  take (Z.to_nat k) (drop (Z.to_nat (g_read_head st)) (g_buffer st)))).
  { exists 0. split; [lia|]. rewrite Z.add_0_r. cbn [Z.to_nat take]. destruct st; reflexivity. }
  unfold usb_flush_iter. rewrite Hc. cbn [mbind result_bind].
  set (c := take (Z.to_nat (send_len cap chunk_size st))
              (drop (Z.to_nat (g_read_head st)) (g_buffer st))).
  assert (Lc : Z.of_nat (length c) = send_len cap chunk_size st).
  { unfold c. rewrite length_take, length_drop. lia. }
  specialize (Htr c).
  destruct (min_send <? available cap st); [|exact Hstay].
  destruct (Z.ltb_spec 0 (tr c)) as [Hpos | Hneg]; [|exact Hstay].
  set (k := tr c) in *. exists k. split; [lia|].
  rewrite u32_small by lia. rewrite Z.mod_small by lia.
  do 2 f_equal. unfold c. rewrite take_take. f_equal. lia.
Qed.

Lemma cb_outcome_ignored cap st info :
  cb_outcome cap st info = Ignored -> malformed info = true.
Proof.
  unfold cb_outcome. destruct info as [i|]; [|reflexivity].
  destruct (malformed (Some i)); [reflexivity|].
  destruct (next_head cap st i =? g_read_head st); discriminate.
Qed.

Lemma cb_outcome_dropped cap st info :
  cb_outcome cap st info = Dropped ->
  exists i, info = Some i /\ malformed (Some i) = false /\
            next_head cap st i = g_read_head st.
Proof.
  unfold cb_outcome. destruct info as [i|]; [|discriminate].
  destruct (malformed (Some i)) eqn:Hm; [discriminate|].
  destruct (Z.eqb_spec (next_head cap st i) (g_read_head st)) as [Heq|]; [|discriminate].
  intros _. exists i. split; [reflexivity|]. split; [exact Hm | exact Heq].
Qed.

Lemma cb_outcome_stored cap st info :
  cb_outcome cap st info = Stored ->
  exists i, info = Some i /\ malformed (Some i) = false /\
            next_head cap st i <> g_read_head st.
Proof.
  unfold cb_outcome. destruct info as [i|]; [|discriminate].
  destruct (malformed (Some i)) eqn:Hm; [discriminate|].
  destruct (Z.eqb_spec (next_head cap st i) (g_read_head st)) as [|Hne]; [discriminate|].
  intros _. exists i. split; [reflexivity|]. split; [exact Hm | exact Hne].
Qed.

Section Fifo.

Variables cap chunk_size min_send : Z.
Hypothesis cap_pos : 0 < cap.
Hypothesis cap_u32 : cap + 2 ^ 16 <= 2 ^ 32.
Hypothesis cap_u32' : 2 * cap <= 2 ^ 32.
Hypothesis chunk_nonneg : 0 <= chunk_size.

Local Abbreviation run' := (run cap chunk_size min_send).
Local Abbreviation stored st es := (stored_bytes (tally_run cap chunk_size min_send st es)).

Lemma fifo_prefix_invariant es :
  forall st,
  state_wf cap st -> g_read_head st <= g_write_head st ->
  Forall event_wf es ->
  g_write_head st + Z.of_nat (length (stored st es)) < cap ->
  exists st' out,
    run' st es = Ok (st', out) /\
    state_wf cap st' /\
    g_read_head st <= g_read_head st' <= g_write_head st' /\
    g_write_head st' = g_write_head st + Z.of_nat (length (stored st es)) /\
    take (Z.to_nat (g_write_head st')) (g_buffer st')
    = take (Z.to_nat (g_write_head st)) (g_buffer st) ++ stored st es /\
    out = take (Z.to_nat (g_read_head st' - g_read_head st))
            (drop (Z.to_nat (g_read_head st))
               (take (Z.to_nat (g_write_head st)) (g_buffer st) ++ stored st es)).
Proof.
  induction es as [|e es IH]; intros st Hst Hle Hes Hroom.
  - exists st, []. cbn [run tally_run stored_bytes length] in *.
    rewrite app_nil_r, Z.add_0_r, Z.sub_diag.
    split; [reflexivity|]. split; [exact Hst|]. split; [lia|].
    split; [reflexivity|]. split; reflexivity.
  - pose proof Hst as (Hlen & Hw & Hr & Hcount).
    apply Forall_cons in Hes as [He Hes].
    destruct e as [info now | tr].
    + (* the callback *)
      cbn [tally_run step] in Hroom |- *. cbn [run step tally_run].
      destruct (cb_outcome cap st info) eqn:Hout.
      * (* malformed *)
        pose proof (cb_malformed cap st info now (cb_outcome_ignored _ _ _ Hout)) as Hcb.
        rewrite Hcb in Hroom |- *. cbn [mbind result_bind] in Hroom |- *.
        unfold tally_event in Hroom |- *. rewrite Hout in Hroom |- *.
        cbn [stored_bytes] in Hroom |- *.
        destruct (IH st Hst Hle Hes Hroom) as (st' & out & Hrun & Hrest).
        exists st', out. rewrite Hrun. cbn [mbind result_bind]. split; [reflexivity | exact Hrest].
      * (* refused *)
        destruct (cb_outcome_dropped _ _ _ Hout) as (i & -> & Hm & Hnext).
        destruct (not_malformed_some i Hm) as (p & Hb & Hl).
        pose proof (cb_dropped cap st i p now Hb Hl Hnext) as Hcb.
        rewrite Hcb in Hroom |- *. cbn [mbind result_bind] in Hroom |- *.
        unfold tally_event in Hroom |- *. rewrite Hout in Hroom |- *.
        cbn [stored_bytes] in Hroom |- *.
        match type of Hcb with _ = Ok ?s => set (st1 := s) in * end.
        assert (Hst1 : state_wf cap st1).
        { apply (cb_preserves_wf cap cap_pos st (Some i) now st1 Hst Hcb). }
        destruct (IH st1 Hst1 Hle Hes Hroom) as (st' & out & Hrun & Hrest).
        exists st', out. rewrite Hrun. cbn [mbind result_bind]. split; [reflexivity | exact Hrest].
      * (* stored *)
        destruct (cb_outcome_stored _ _ _ Hout) as (i & -> & Hm & Hnext).
        destruct (not_malformed_some i Hm) as (p & Hb & Hl).
        cbn [event_wf] in He. destruct He as [Hi Hs].
        destruct (frame_bytes_wf i p now Hi Hb) as [Hframe Hflen].
        unfold tally_event in Hroom |- *. rewrite Hout in Hroom |- *.
        cbn [stored_bytes] in Hroom |- *.
        assert (Hfit : g_write_head st + sizeof_packet_header_t + len i < cap).
        { rewrite length_app in Hroom. lia. }
        pose proof (cb_contiguous cap cap_u32 st i p now Hst Hi Hb Hl Hs Hnext ltac:(lia)) as Hcb.
        rewrite Z.mod_small in Hcb by (unfold sizeof_packet_header_t in *; lia).
        rewrite <- Hframe in Hcb.
        rewrite Hcb in Hroom |- *. cbn [mbind result_bind] in Hroom |- *.
        match type of Hcb with _ = Ok ?s => set (st1 := s) in * end.
        assert (Hst1 : state_wf cap st1).
        { apply (cb_preserves_wf cap cap_pos st (Some i) now st1 Hst Hcb). }
        rewrite length_app in Hroom.
        destruct (IH st1 Hst1) as (st' & out & Hrun & Hst' & Hrh & Hwh & Hbuf & Hout').
        { unfold st1. cbn [g_read_head g_write_head]. unfold sizeof_packet_header_t in *. lia. }
        { exact Hes. }
        { unfold st1 at 1. cbn [g_write_head]. lia. }
        exists st', out. rewrite Hrun. cbn [mbind result_bind].
        assert (Hpre : take (Z.to_nat (g_write_head st1)) (g_buffer st1)
                       = take (Z.to_nat (g_write_head st)) (g_buffer st) ++ frame_bytes i now).
        { unfold st1. cbn [g_write_head g_buffer].
          replace (g_write_head st + sizeof_packet_header_t + len i)
            with (g_write_head st + Z.of_nat (length (frame_bytes i now))) by lia.
          apply take_splice_end; lia. }
        rewrite Hpre, <- app_assoc in Hbuf, Hout'.
        change (g_read_head st1) with (g_read_head st) in *.
        change (g_write_head st1) with (g_write_head st + sizeof_packet_header_t + len i) in *.
        split; [reflexivity|]. split; [exact Hst'|]. split; [lia|].
        split; [rewrite Hwh, length_app; lia|]. split; [exact Hbuf | exact Hout'].
    + (* a pass of the drain loop *)
      cbn [event_wf] in He.
      destruct (flush_no_wrap cap chunk_size min_send tr st cap_pos cap_u32' chunk_nonneg
                  Hst Hle He) as (k & Hk & Hfl).
      cbn [tally_run step tally_event] in Hroom |- *. cbn [run step].
      rewrite Hfl in Hroom |- *. cbn [mbind result_bind] in Hroom |- *.
      match type of Hfl with _ = Ok (?s, _) => set (st1 := s) in * end.
      assert (Hst1 : state_wf cap st1).
      { unfold state_wf, st1. cbn [g_buffer g_write_head g_read_head g_packet_count]. lia. }
      destruct (IH st1 Hst1) as (st' & out & Hrun & Hst' & Hrh & Hwh & Hbuf & Hout').
      { unfold st1. cbn [g_read_head g_write_head]. lia. }
      { exact Hes. }
      { exact Hroom. }
      exists st', (take (Z.to_nat k) (drop (Z.to_nat (g_read_head st)) (g_buffer st)) ++ out).
      rewrite Hrun. cbn [mbind result_bind].
      change (g_read_head st1) with (g_read_head st + k) in *.
      change (g_write_head st1) with (g_write_head st) in *.
      change (g_buffer st1) with (g_buffer st) in *.
      split; [reflexivity|]. split; [exact Hst'|]. split; [lia|].
      split; [exact Hwh|]. split; [exact Hbuf|].
      rewrite Hout'.
      rewrite (prefix_stretch (g_buffer st) (stored st1 es) (Z.to_nat (g_read_head st))
                 (Z.to_nat k) (Z.to_nat (g_write_head st))) by lia.
      replace (Z.to_nat (g_read_head st + k))
        with (Z.to_nat (g_read_head st) + Z.to_nat k)%nat by lia.
      rewrite <- drop_drop, take_take_drop. f_equal. lia.
Qed.

End Fifo.

(** X9: first in, first out, up to the first frame that reaches the
    physical end of the array.  From start-up, for any interleaving of
    well-formed events (payloads of at most 65525 bytes) and drain passes
    whose transport takes no more than it is offered, as long as the frames
    stored so far hold fewer bytes than the array: no store or load leaves
    the array, the transport has received exactly the first [g_read_head]
    bytes of the stored frames (header, payload, header, payload, ... in the
    order of storing), the bytes still in the ring are the rest, and nothing
    is lost, repeated or reordered. *)
Theorem fifo_until_first_wrap (cap chunk_size min_send : Z) (es : list event) :
  0 < cap -> cap + 2 ^ 16 <= 2 ^ 32 -> 2 * cap <= 2 ^ 32 -> 0 <= chunk_size ->
  Forall event_wf es ->
  Z.of_nat (length (stored_bytes (tally_run cap chunk_size min_send (init cap) es))) < cap ->
  exists st' out,
    run cap chunk_size min_send (init cap) es = Ok (st', out) /\
    out = take (Z.to_nat (g_read_head st'))
            (stored_bytes (tally_run cap chunk_size min_send (init cap) es)) /\
    g_write_head st'
    = Z.of_nat (length (stored_bytes (tally_run cap chunk_size min_send (init cap) es))) /\
    available cap st' = g_write_head st' - g_read_head st' /\
    out ++ take (Z.to_nat (available cap st'))
             (drop (Z.to_nat (g_read_head st')) (g_buffer st'))
    = stored_bytes (tally_run cap chunk_size min_send (init cap) es).
Proof.
  intros Hcap Hu32 Hu32' Hchunk Hes Hroom.
  destruct (fifo_prefix_invariant cap chunk_size min_send Hcap Hu32 Hu32' Hchunk es
              (init cap) (init_wf cap Hcap) ltac:(reflexivity) Hes Hroom)
    as (st' & out & Hrun & Hst' & Hrh & Hwh & Hbuf & Hout).
  cbn [init g_write_head g_read_head g_buffer Z.to_nat take app] in Hrh, Hwh, Hbuf, Hout.
  rewrite Z.sub_0_r, drop_0 in Hout. rewrite Z.add_0_l in Hwh.
  set (S := stored_bytes (tally_run cap chunk_size min_send (init cap) es)) in *.
  pose proof Hst' as (Hlen & Hw & Hr & _).
  assert (Hav : available cap st' = g_write_head st' - g_read_head st').
  { rewrite (available_wf cap Hu32' st' Hst'). unfold cyclic_distance. apply Z.mod_small. lia. }
  exists st', out. split; [exact Hrun|]. split; [exact Hout|]. split; [exact Hwh|].
  split; [exact Hav|].
  rewrite Hout, Hav, take_drop_commute.
  replace (Z.to_nat (g_read_head st') + Z.to_nat (g_write_head st' - g_read_head st'))%nat
    with (Z.to_nat (g_write_head st')) by lia.
  rewrite Hbuf. apply take_drop.
Qed.

Lemma fifo_until_first_wrap_witness :
  let es := [Csi (Some (csi_event 3 7)) 1; Flush (fun c => Z.min 5 (Z.of_nat (length c)));
             Csi None 2; Csi (Some (csi_event 2 9)) 3; Flush accept_all] in
  (0 < 64 /\ 64 + 2 ^ 16 <= 2 ^ 32 /\ 2 * 64 <= 2 ^ 32 /\ 0 <= 16 /\
   Forall event_wf es /\
   Z.of_nat (length (stored_bytes (tally_run 64 16 4 (init 64) es))) < 64) /\
  stored_bytes (tally_run 64 16 4 (init 64) es)
  = [250; 250; 3; 0; 216; 6; 1; 0; 0; 0; 7; 7; 7;
     250; 250; 2; 0; 216; 6; 3; 0; 0; 0; 9; 9] /\
  exists st',
    run 64 16 4 (init 64) es
    = Ok (st', [250; 250; 3; 0; 216] ++ [6; 1; 0; 0; 0; 7; 7; 7;
                250; 250; 2; 0; 216; 6; 3; 0]) /\
    g_read_head st' = 21 /\ g_write_head st' = 25.
Proof.
  intros es.
  assert (Hes : Forall event_wf es).
  { constructor; [|constructor; [|constructor; [|constructor; [|constructor; [|constructor]]]]];
      cbn [event_wf].
    - split; [apply csi_event_wf; [lia | exact is_byte_7] | reflexivity].
    - intros c. lia.
    - exact I.
    - split; [apply csi_event_wf; [lia | unfold is_byte; lia] | reflexivity].
    - intros c. unfold accept_all. lia. }
  assert (Hroom : Z.of_nat (length (stored_bytes (tally_run 64 16 4 (init 64) es))) < 64)
    by reflexivity.
  split.
  { split; [reflexivity|]. split; [discriminate|]. split; [discriminate|].
    split; [discriminate|]. split; [exact Hes | exact Hroom]. }
  split; [reflexivity|].
  destruct (fifo_until_first_wrap 64 16 4 es ltac:(lia) ltac:(lia) ltac:(lia) ltac:(lia)
              Hes Hroom) as (st' & out & Hrun & Hout & Hwh & _).
  exists st'.
  assert (Heq : Ok (st', out) = run 64 16 4 (init 64) es) by (symmetry; exact Hrun).
  vm_compute in Heq. injection Heq as Hs Ho.
  rewrite Hrun, Ho, Hs. repeat split.
Defined.

(** X10: the cursors never leave the array.  Whatever events and answers of
    the transport a schedule holds, well-formed or not, if it runs from
    start-up without an out-of-bounds copy then in the state it reaches the
    array still has its declared size, both cursors index it and the packet
    counter is in the range of its type. *)
Theorem cursors_stay_inside (cap chunk_size min_send : Z) (es : list event)
    (st : state) (out : list Z) :
  0 < cap ->
  run cap chunk_size min_send (init cap) es = Ok (st, out) ->
  Z.of_nat (length (g_buffer st)) = cap /\
  0 <= g_write_head st < cap /\
  0 <= g_read_head st < cap /\
  0 <= g_packet_count st < 2 ^ 32.
Proof.
  intros Hcap Hrun.
  exact (run_preserves_wf cap chunk_size min_send es Hcap (init cap) st out
           (init_wf cap Hcap) Hrun).
Qed.

Lemma cursors_stay_inside_witness :
  let es := [Csi (Some (csi_event 40 7)) 1; Flush (accept_only 50);
             Csi (Some (csi_event 10 7)) 1; Flush (accept_only 1000)] in
  exists st out,
    (0 < 64 /\ run 64 16 4 (init 64) es = Ok (st, out)) /\
    (Z.of_nat (length (g_buffer st)) = 64 /\
     0 <= g_write_head st < 64 /\
     0 <= g_read_head st < 64 /\
     0 <= g_packet_count st < 2 ^ 32) /\
    g_write_head st = 6 /\ g_read_head st = 26.
Proof.
  intros es.
  destruct (run 64 16 4 (init 64) es) as [[st out]|] eqn:Hrun;
    [|vm_compute in Hrun; discriminate].
  exists st, out.
  split; [split; [reflexivity | reflexivity]|].
  split; [exact (cursors_stay_inside 64 16 4 es st out ltac:(lia) Hrun)|].
  vm_compute in Hrun. injection Hrun as <- _. split; reflexivity.
Defined.

(** ** The heartbeat *)

Lemma u32_elapsed l d : 0 <= l < 2 ^ 32 -> 0 <= d < 2 ^ 32 -> u32 (u32 (l + d) - l) = d.
Proof.
  intros Hl Hd. unfold u32. rewrite Zminus_mod_idemp_l.
  replace (l + d - l) with d by lia. apply Z.mod_small. exact Hd.
Qed.

(** X11: the heartbeat measures the time since the last status line modulo
    2^32, so it is not upset when the millisecond tick wraps: if [now] is
    [d] milliseconds after [last_log] in 32-bit arithmetic, a line is printed
    exactly when [d] exceeds 2000; the line carries the packet count, and
    [last_log] moves to [now] only when a line is printed.  The heartbeat
    has no effect on the pass of the drain loop that follows it. *)
Theorem heartbeat_wraps (cap chunk_size min_send : Z) (tr : list Z -> Z) (st : state)
    (last_log d : Z) :
  0 <= last_log < 2 ^ 32 -> 0 <= d < 2 ^ 32 ->
  heartbeat (g_packet_count st) last_log (u32 (last_log + d))
  = (if 2000 <? d then (Some (g_packet_count st), u32 (last_log + d)) else (None, last_log)) /\
  usb_flush_task_iter cap chunk_size min_send (u32 (last_log + d)) tr st last_log
  = '(st', out) ← usb_flush_iter cap chunk_size min_send tr st;
    Ok (st',
        (if 2000 <? d then u32 (last_log + d) else last_log),
        (if 2000 <? d then Some (g_packet_count st) else None),
        out).
Proof.
  intros Hl Hd.
  assert (Hb : heartbeat (g_packet_count st) last_log (u32 (last_log + d))
               = (if 2000 <? d then (Some (g_packet_count st), u32 (last_log + d))
                  else (None, last_log))).
  { unfold heartbeat. rewrite (u32_elapsed last_log d Hl Hd). reflexivity. }
  split; [exact Hb|].
  unfold usb_flush_task_iter. rewrite Hb.
  destruct (2000 <? d); reflexivity.
Qed.

Lemma heartbeat_wraps_witness :
  (0 <= 4294966296 < 2 ^ 32 /\ 0 <= 2001 < 2 ^ 32) /\
  heartbeat 12 4294966296 1001 = (Some 12, 1001) /\
  heartbeat 12 4294966296 1000 = (None, 4294966296).
Proof.
  split; [lia|].
  destruct (heartbeat_wraps 64 16 4 accept_all
              {| g_buffer := []; g_write_head := 0; g_read_head := 0; g_packet_count := 12 |}
              4294966296 2001 ltac:(lia) ltac:(lia)) as [H _].
  split; [exact H | reflexivity].
Defined.

Lemma heartbeat_times_head last_log nows t ts :
  heartbeat_times last_log nows = t :: ts -> 2000 < u32 (t - last_log).
Proof.
  revert last_log. induction nows as [|now nows IH]; intros last_log; [discriminate|].
  cbn [heartbeat_times]. unfold heartbeat.
  destruct (Z.ltb_spec 2000 (u32 (now - last_log))) as [Hgt | Hle].
  - intros [= <- _]. exact Hgt.
  - apply IH.
Qed.

(** X12: two status lines are never printed 2000 ms or less apart.  Run
    through any sequence of tick values from any [last_log], the first line
    comes more than 2000 ms (in 32-bit arithmetic) after [last_log] and every
    later line more than 2000 ms after the line before it; and every line is
    printed at one of the tick values of the sequence. *)
Theorem heartbeat_spacing (last_log : Z) (nows : list Z) :
  (forall t, heartbeat_times last_log nows !! 0%nat = Some t ->
             2000 < u32 (t - last_log)) /\
  (forall (k : nat) t1 t2,
     heartbeat_times last_log nows !! k = Some t1 ->
     heartbeat_times last_log nows !! S k = Some t2 ->
     2000 < u32 (t2 - t1)) /\
  (forall t, t ∈ heartbeat_times last_log nows -> t ∈ nows).
Proof.
  split; [|split].
  - intros t Ht. destruct (heartbeat_times last_log nows) as [|t' ts] eqn:E; [discriminate|].
    injection Ht as <-. apply (heartbeat_times_head last_log nows t' ts E).
  - revert last_log. induction nows as [|now nows IH]; intros last_log k t1 t2.
    { cbn [heartbeat_times]. intros H. discriminate. }
    cbn [heartbeat_times]. unfold heartbeat.
    destruct (2000 <? u32 (now - last_log)); [|apply IH].
    destruct k as [|k].
    + intros [= <-] H2.
      destruct (heartbeat_times now nows) as [|t' ts] eqn:E; [discriminate|].
      injection H2 as <-. apply (heartbeat_times_head now nows t' ts E).
    + apply IH.
  - revert last_log. induction nows as [|now nows IH]; intros last_log t.
    { cbn [heartbeat_times]. intros H. exact H. }
    cbn [heartbeat_times]. unfold heartbeat.
    destruct (2000 <? u32 (now - last_log)).
    + rewrite !elem_of_cons. intros [-> | H]; [left; reflexivity | right; apply (IH now t H)].
    + intros H. apply elem_of_cons. right. apply (IH last_log t H).
Qed.

Lemma heartbeat_spacing_witness :
  heartbeat_times 0 [1000; 2001; 3000; 4002; 5000] = [2001; 4002] /\
  2000 < u32 (4002 - 2001) /\ 2000 < u32 (2001 - 0).
Proof.
  destruct (heartbeat_spacing 0 [1000; 2001; 3000; 4002; 5000]) as (Hfirst & Hnext & _).
  split; [reflexivity|].
  split; [exact (Hnext 0%nat 2001 4002 eq_refl eq_refl) | exact (Hfirst 2001 eq_refl)].
Defined.

(** ** The packet generator *)

Lemma blaster_loop_accepted ESP_OK rs :
  forall p,
  0 <= Blaster.seq p < 2 ^ 32 ->
  map Blaster.seq (Blaster.accepted ESP_OK (fst (Blaster.blaster_loop ESP_OK rs p)))
  = map (fun k => u32 (Blaster.seq p + Z.of_nat k))
      (seq 0 (length (Blaster.accepted ESP_OK (fst (Blaster.blaster_loop ESP_OK rs p))))) /\
  Blaster.seq (snd (Blaster.blaster_loop ESP_OK rs p))
  = u32 (Blaster.seq p
         + Z.of_nat (length (Blaster.accepted ESP_OK (fst (Blaster.blaster_loop ESP_OK rs p))))) /\
  length (fst (Blaster.blaster_loop ESP_OK rs p)) = length rs.
Proof.
  induction rs as [|r rs IH]; intros p Hp.
  - cbn. rewrite Z.add_0_r, u32_small by exact Hp. repeat split.
  - cbn [Blaster.blaster_loop].
    destruct (Blaster.blaster_loop ESP_OK rs (Blaster.blaster_iter ESP_OK r p))
      as [offered final] eqn:E.
    assert (Hp' : 0 <= Blaster.seq (Blaster.blaster_iter ESP_OK r p) < 2 ^ 32).
    { unfold Blaster.blaster_iter. destruct (r =? ESP_OK); [apply u32_range | exact Hp]. }
    specialize (IH _ Hp'). rewrite E in IH. cbn [fst snd] in IH |- *.
    destruct IH as (IHseq & IHfin & IHlen).
    unfold Blaster.accepted in *. cbn [List.filter snd].
    unfold Blaster.blaster_iter in *.
    destruct (r =? ESP_OK); cbn [Blaster.seq map fst length seq] in *.
    + rewrite Z.add_0_r, (u32_small (Blaster.seq p)) by exact Hp.
      split; [|split].
      * f_equal. rewrite IHseq, <- seq_shift, map_map. apply map_ext. intros k.
        rewrite u32_succ_u32. f_equal. lia.
      * rewrite IHfin, u32_succ_u32. f_equal. lia.
      * f_equal. exact IHlen.
    + split; [exact IHseq|]. split; [exact IHfin | f_equal; exact IHlen].
Qed.

Lemma blaster_accepted_count ESP_OK rs :
  forall p,
  length (Blaster.accepted ESP_OK (fst (Blaster.blaster_loop ESP_OK rs p)))
  = length (List.filter (fun r => r =? ESP_OK) rs).
Proof.
  unfold Blaster.accepted. induction rs as [|r rs IH]; intros p; [reflexivity|].
  cbn [Blaster.blaster_loop].
  destruct (Blaster.blaster_loop ESP_OK rs (Blaster.blaster_iter ESP_OK r p))
    as [off fin] eqn:E.
  specialize (IH (Blaster.blaster_iter ESP_OK r p)). rewrite E in IH.
  cbn [fst List.filter snd] in IH |- *.
  destruct (r =? ESP_OK); cbn [map length]; rewrite IH; reflexivity.
Qed.

(** X13: the packets that [esp_now_send] takes carry the sequence numbers
    0, 1, 2, ... (modulo 2^32) with no gap and no repeat, however sends that
    fail are mixed in: the k-th packet taken has sequence number k; after the
    loop the counter holds the number of packets taken; one packet is offered
    per pass. *)
Theorem blaster_sequence_numbers (ESP_OK : Z) (results : list Z) :
  let offered := Blaster.blaster_task ESP_OK ESP_OK ESP_OK results in
  map Blaster.seq (Blaster.accepted ESP_OK offered)
  = map (fun k => u32 (Z.of_nat k)) (seq 0 (length (Blaster.accepted ESP_OK offered))) /\
  Blaster.seq (snd (Blaster.blaster_loop ESP_OK results (Blaster.payload_init)))
  = u32 (Z.of_nat (length (Blaster.accepted ESP_OK offered))) /\
  length offered = length results /\
  length (Blaster.accepted ESP_OK offered)
  = length (List.filter (fun r => r =? ESP_OK) results).
Proof.
  intros offered. unfold offered, Blaster.blaster_task. rewrite Z.eqb_refl. cbn [negb].
  destruct (blaster_loop_accepted ESP_OK results Blaster.payload_init) as (Hseq & Hfin & Hlen).
  { cbn. lia. }
  cbn [Blaster.payload_init Blaster.seq] in Hseq, Hfin.
  split; [exact Hseq|]. split; [exact Hfin|]. split; [exact Hlen|].
  apply blaster_accepted_count.
Qed.

(** X14: what the generator offers.  Every packet offered has both magic
    bytes 0xFA; a packet that [esp_now_send] refuses is offered again
    unchanged on the next pass, and one that it takes is followed by a packet
    whose sequence number is one higher (modulo 2^32).  If the broadcast peer
    cannot be added, or the rate cannot be set, nothing is offered at all. *)
Theorem blaster_retries (ESP_OK : Z) (add_peer rate_config : Z) (results : list Z) :
  let offered := Blaster.blaster_task ESP_OK add_peer rate_config results in
  (forall p r, (p, r) ∈ offered ->
     Blaster.magic0 p = 0xFA /\ Blaster.magic1 p = 0xFA) /\
  (forall (k : nat) p r p' r',
     offered !! k = Some (p, r) -> offered !! S k = Some (p', r') ->
     if r =? ESP_OK then
       Blaster.seq p' = u32 (Blaster.seq p + 1)
     else p' = p) /\
  (add_peer <> ESP_OK \/ rate_config <> ESP_OK -> offered = []).
Proof.
  intros offered.
  assert (Hloop : forall rs p0,
            Blaster.magic0 p0 = 0xFA -> Blaster.magic1 p0 = 0xFA ->
            (forall p r, (p, r) ∈ fst (Blaster.blaster_loop ESP_OK rs p0) ->
               Blaster.magic0 p = 0xFA /\ Blaster.magic1 p = 0xFA) /\
            (forall p r, fst (Blaster.blaster_loop ESP_OK rs p0) !! 0%nat = Some (p, r) ->
               p = p0) /\
            (forall (k : nat) p r p' r',
               fst (Blaster.blaster_loop ESP_OK rs p0) !! k = Some (p, r) ->
               fst (Blaster.blaster_loop ESP_OK rs p0) !! S k = Some (p', r') ->
               if r =? ESP_OK then Blaster.seq p' = u32 (Blaster.seq p + 1) else p' = p)).
  { induction rs as [|r0 rs IH]; intros p0 Hm0 Hm1.
    { cbn. split; [|split].
      - intros p r H. apply elem_of_nil in H. contradiction.
      - intros p r H. discriminate.
      - intros k p r p' r' H. discriminate. }
    cbn [Blaster.blaster_loop].
    destruct (Blaster.blaster_loop ESP_OK rs (Blaster.blaster_iter ESP_OK r0 p0))
      as [off fin] eqn:E.
    assert (Hn0 : Blaster.magic0 (Blaster.blaster_iter ESP_OK r0 p0) = 0xFA).
    { unfold Blaster.blaster_iter. destruct (r0 =? ESP_OK); exact Hm0. }
    assert (Hn1 : Blaster.magic1 (Blaster.blaster_iter ESP_OK r0 p0) = 0xFA).
    { unfold Blaster.blaster_iter. destruct (r0 =? ESP_OK); exact Hm1. }
    destruct (IH _ Hn0 Hn1) as (IHm & IHh & IHs). rewrite E in IHm, IHh, IHs.
    cbn [fst] in IHm, IHh, IHs |- *.
    split; [|split].
    - intros p r H. apply elem_of_cons in H as [[= -> ->] | H]; [split; assumption|].
      apply (IHm p r H).
    - intros p r [= -> ->]. reflexivity.
    - intros k p r p' r'. destruct k as [|k].
      + intros [= <- <-] H'. cbn in H'.
        pose proof (IHh p' r' H') as ->.
        unfold Blaster.blaster_iter. destruct (r0 =? ESP_OK); reflexivity.
      + cbn. apply IHs. }
  unfold offered, Blaster.blaster_task.
  destruct (Z.eqb_spec add_peer ESP_OK) as [Ha | Ha]; cbn [negb].
  2:{ split; [|split].
      - intros p r H. apply elem_of_nil in H. contradiction.
      - intros k p r p' r' H. discriminate.
      - reflexivity. }
  destruct (Z.eqb_spec rate_config ESP_OK) as [Hr | Hr]; cbn [negb].
  2:{ split; [|split].
      - intros p r H. apply elem_of_nil in H. contradiction.
      - intros k p r p' r' H. discriminate.
      - reflexivity. }
  destruct (Hloop results Blaster.payload_init eq_refl eq_refl) as (Hm & _ & Hs).
  split; [exact Hm|]. split; [exact Hs|].
  intros [H | H]; contradiction.
Qed.

Lemma blaster_retries_witness :
  let offered := Blaster.blaster_task 0 0 0 [0; 5; 0] in
  map (fun pr => (Blaster.seq (fst pr), snd pr)) offered = [(0, 0); (1, 5); (1, 0)] /\
  (forall p r p' r',
     offered !! 1%nat = Some (p, r) -> offered !! 2%nat = Some (p', r') -> p' = p) /\
  Blaster.blaster_task 0 7 0 [0; 5; 0] = [].
Proof.
  intros offered.
  destruct (blaster_retries 0 0 0 [0; 5; 0]) as (_ & Hstep & _).
  destruct (blaster_retries 0 7 0 [0; 5; 0]) as (_ & _ & Hnone).
  split; [reflexivity|]. split.
  - intros p r p' r' H1 H2. pose proof (Hstep 1%nat p r p' r' H1 H2) as H.
    injection H1 as <- <-. exact H.
  - apply Hnone. left. discriminate.
Defined.

(** ** What a returning callback has stored *)

Lemma memcpy_inv dst off src from n d :
  memcpy dst off src from n = Ok d ->
  0 <= from /\ 0 <= n /\ from + n <= Z.of_nat (length src) /\
  0 <= off /\ off + n <= Z.of_nat (length dst).
Proof.
  unfold memcpy.
  destruct ((0 <=? from) && (0 <=? n) && (from + n <=? Z.of_nat (length src))) eqn:E1;
    [|discriminate].
  destruct ((0 <=? off) && (off + n <=? Z.of_nat (length dst))) eqn:E2; [|discriminate].
  intros _. rewrite !andb_true_iff, !Z.leb_le in E1, E2. lia.
Qed.

Lemma fast_copy_asm_inv dst off src n d :
  0 <= n -> fast_copy_asm dst off src n = Ok d ->
  n <= Z.of_nat (length src) /\ 0 <= off /\ off + n <= Z.of_nat (length dst).
Proof.
  intros Hn. unfold fast_copy_asm.
  pose proof (words_and_rest n Hn) as Hsum.
  destruct (memcpy dst off src 0 _) as [d1|] eqn:E1; [|discriminate].
  simpl. intros E2.
  pose proof (memcpy_length _ _ _ _ _ _ E1) as L1.
  apply memcpy_inv in E1, E2. lia.
Qed.

Lemma splice_keeps_front dst off b1 b2 :
  0 <= off ->
  off + Z.of_nat (length b1) + Z.of_nat (length b2) <= Z.of_nat (length dst) ->
  take (length b1)
    (drop (Z.to_nat off) (splice (splice dst off b1) (off + Z.of_nat (length b1)) b2))
  = b1.
Proof.
  intros Ho Hd. rewrite splice_splice by lia.
  pose proof (splice_read_back dst off (b1 ++ b2) Ho) as H.
  rewrite length_app, Nat2Z.inj_add in H. specialize (H ltac:(lia)).
  apply (f_equal (take (length b1))) in H.
  rewrite take_take, take_app_length in H.
  rewrite Nat.min_l in H by lia. exact H.
Qed.

(** A frame that is not refused: where the callback leaves the write cursor
    and the header when it returns. *)
Lemma cb_stored cap st i now st' :
  cap + 2 ^ 16 <= 2 ^ 32 -> state_wf cap st ->
  malformed (Some i) = false -> next_head cap st i <> g_read_head st ->
  wifi_csi_cb cap st (Some i) now = Ok st' ->
  g_write_head st' = (g_write_head st + total_len i) mod cap /\
  g_read_head st' = g_read_head st /\
  g_packet_count st' = u32 (g_packet_count st + 1) /\
  take (Z.to_nat sizeof_packet_header_t) (drop (Z.to_nat (g_write_head st)) (g_buffer st'))
  = header_bytes (make_header i now).
Proof.
  intros Hu32 Hst Hm Hn.
  destruct (not_malformed_some i Hm) as (p & Hb & Hl).
  pose proof (next_head_wf cap Hu32 st i Hst) as Hnh.
  pose proof Hst as (Hlen & Hw & Hr & _).
  pose proof (header_bytes_length (make_header i now)) as Hh.
  set (h := header_bytes (make_header i now)) in *.
  assert (Hh' : Z.to_nat sizeof_packet_header_t = length h) by lia.
  unfold wifi_csi_cb. rewrite Hb.
  destruct (Z.eqb_spec (len i) 0) as [|_]; [contradiction|].
  destruct (Z.eqb_spec (next_head cap st i) (g_read_head st)) as [|_]; [contradiction|].
  cbv zeta. fold h.
  destruct (u32 (g_write_head st + total_len i) <=? cap).
  - destruct (fast_copy_asm (g_buffer st) _ _ _) as [b1|] eqn:E1; [|discriminate].
    simpl. destruct (fast_copy_asm b1 _ _ _) as [b2|] eqn:E2; [|discriminate].
    simpl. intros [= <-]. cbn [g_write_head g_read_head g_packet_count g_buffer].
    split; [exact Hnh|]. split; [reflexivity|]. split; [reflexivity|].
    assert (Hd : 0 <= data_len i < 2 ^ 16) by (unfold data_len, u16; apply Z.mod_pos_bound; lia).
    assert (Hs0 : 0 <= sizeof_packet_header_t) by (unfold sizeof_packet_header_t; lia).
    pose proof (fast_copy_asm_inv _ _ _ _ _ Hs0 E1) as (H1 & H2 & H3).
    rewrite fast_copy_asm_ok in E1 by (unfold sizeof_packet_header_t in *; lia).
    rewrite Hh', firstn_all in E1.
    assert (Eb1 : b1 = splice (g_buffer st) (g_write_head st) h) by congruence.
    subst b1.
    unfold sizeof_packet_header_t in Hh, H3, E2.
    rewrite (u32_small (g_write_head st + _)) in E2 by lia.
    pose proof (fast_copy_asm_inv _ _ _ _ _ (proj1 Hd) E2) as (H4 & H5 & H6).
    rewrite splice_length in H6 by lia.
    rewrite fast_copy_asm_ok in E2; rewrite ?splice_length; try lia.
    assert (Eb2 : b2 = splice (splice (g_buffer st) (g_write_head st) h)
                         (g_write_head st + (2 + 2 + 1 + 1 + 4))
                         (take (Z.to_nat (data_len i)) p)) by congruence.
    subst b2. rewrite Hh'.
    replace (g_write_head st + (2 + 2 + 1 + 1 + 4))
      with (g_write_head st + Z.of_nat (length h)) by lia.
    apply splice_keeps_front; [lia|].
    rewrite length_take. lia.
  - destruct (memcpy (g_buffer st) _ _ _ _) as [b|] eqn:E; [|discriminate].
    simpl. intros [= <-]. cbn [g_write_head g_read_head g_packet_count g_buffer].
    split; [exact Hnh|]. split; [reflexivity|]. split; [reflexivity|].
    pose proof (memcpy_inv _ _ _ _ _ _ E) as (H1 & H2 & H3 & H4 & H5).
    rewrite memcpy_ok in E by lia.
    rewrite drop_0, Hh', firstn_all in E.
    assert (Eb : b = splice (g_buffer st) (g_write_head st) h) by congruence.
    subst b. rewrite Hh'.
    apply splice_read_back; lia.
Qed.

(** ** When the callback refuses *)

Lemma mod_eq_iff a r c : 0 < c -> 0 <= r < c -> (a mod c = r <-> (a - r) mod c = 0).
Proof.
  intros Hc Hr. split.
  - intros H. rewrite <- Zminus_mod_idemp_l, H, Z.sub_diag. apply Z.mod_0_l. lia.
  - intros H. replace a with ((a - r) + r) by lia.
    rewrite <- Zplus_mod_idemp_l, H. apply Z.mod_small. lia.
Qed.

Lemma dropped_iff_full cap st i :
  0 < cap -> cap + 2 ^ 16 <= 2 ^ 32 -> 2 * cap <= 2 ^ 32 ->
  state_wf cap st -> malformed (Some i) = false ->
  (cb_outcome cap st (Some i) = Dropped <-> (available cap st + total_len i) mod cap = 0).
Proof.
  intros Hcap Hu32 Hu32' Hst Hm.
  pose proof Hst as (_ & _ & Hr & _).
  rewrite (available_wf cap Hu32' st Hst). unfold cyclic_distance.
  rewrite Zplus_mod_idemp_l.
  replace (g_write_head st - g_read_head st + total_len i)
    with (g_write_head st + total_len i - g_read_head st) by lia.
  rewrite <- (mod_eq_iff _ _ _ Hcap Hr), <- (next_head_wf cap Hu32 st i Hst).
  unfold cb_outcome. rewrite Hm.
  destruct (Z.eqb_spec (next_head cap st i) (g_read_head st)) as [Heq | Hne].
  - split; [intros _; exact Heq | reflexivity].
  - split; [discriminate | contradiction].
Qed.

(** A frame the callback has left through the full test of line 62, seen
    from outside: the state is as before but for the counter. *)
Lemma refused_is_dropped cap st i now :
  cap + 2 ^ 16 <= 2 ^ 32 -> state_wf cap st ->
  malformed (Some i) = false -> total_len i mod cap <> 0 ->
  wifi_csi_cb cap st (Some i) now
  = Ok {| g_buffer := g_buffer st;
          g_write_head := g_write_head st;
          g_read_head := g_read_head st;
          g_packet_count := u32 (g_packet_count st + 1) |} ->
  cb_outcome cap st (Some i) = Dropped.
Proof.
  intros Hu32 Hst Hm Hmod Hcb.
  pose proof Hst as (_ & Hw & _).
  destruct (cb_outcome cap st (Some i)) eqn:Hout; [| reflexivity |].
  - apply cb_outcome_ignored in Hout. congruence.
  - exfalso. destruct (cb_outcome_stored cap st (Some i) Hout) as (i' & [= <-] & _ & Hne).
    destruct (cb_stored cap st i now _ Hu32 Hst Hm Hne Hcb) as (Hw' & _).
    cbn [g_write_head] in Hw'. apply Hmod.
    replace (total_len i) with (g_write_head st + total_len i - g_write_head st) by lia.
    rewrite Zminus_mod, <- Hw', (Z.mod_small (g_write_head st)) by lia.
    rewrite Z.sub_diag. apply Z.mod_0_l. lia.
Qed.

Lemma stored_after_drain (cap chunk_size min_send : Z)
    (tr : list Z -> Z) (st st' : state) (out : list Z) (i : wifi_csi_info_t) :
  0 < cap -> cap + 2 ^ 16 <= 2 ^ 32 -> 2 * cap <= 2 ^ 32 -> 0 <= chunk_size ->
  state_wf cap st ->
  cb_outcome cap st (Some i) = Dropped ->
  (forall c, tr c <= Z.of_nat (length c)) ->
  usb_flush_iter cap chunk_size min_send tr st = Ok (st', out) ->
  out <> [] ->
  cb_outcome cap st' (Some i) = Stored.
Proof.
  intros Hcap Hu32 Hu32' Hchunk Hst Hdrop Htr Hrun Hout.
  destruct (cb_outcome_dropped cap st (Some i) Hdrop) as (i' & [= <-] & Hm & _).
  pose proof (flush_preserves_wf cap chunk_size min_send Hcap tr st st' out Hst Hrun) as Hst'.
  pose proof (available_range cap Hcap Hu32' st Hst) as Ha.
  pose proof (available_range cap Hcap Hu32' st' Hst') as Ha'.
  assert (Hav : available cap st' = available cap st - Z.of_nat (length out)
                /\ 0 < Z.of_nat (length out)).
  { pose proof (read_chunk_ok cap chunk_size Hcap Hu32' Hchunk st Hst) as Hc.
    pose proof (send_len_bounds cap chunk_size Hcap Hu32' Hchunk st Hst) as (H0 & Hcs & Hsa & He).
    pose proof (available_wf cap Hu32' st Hst) as Havd.
    pose proof Hst as (Hlen & Hw & Hr & Hcount).
    unfold usb_flush_iter in Hrun. rewrite Hc in Hrun. cbn [mbind result_bind] in Hrun.
    set (c := take (Z.to_nat (send_len cap chunk_size st))
                (drop (Z.to_nat (g_read_head st)) (g_buffer st))) in *.
    assert (Lc : Z.of_nat (length c) = send_len cap chunk_size st).
    { unfold c. rewrite length_take, length_drop. lia. }
    specialize (Htr c).
    destruct (min_send <? available cap st);
      [|injection Hrun as _ Ho; symmetry in Ho; contradiction].
    destruct (Z.ltb_spec 0 (tr c)) as [Hpos | Hneg];
      [|injection Hrun as _ Ho; symmetry in Ho; contradiction].
    injection Hrun as Hs Ho.
    assert (Lo : Z.of_nat (length out) = tr c) by (rewrite <- Ho, length_take; lia).
    rewrite Lo. split; [|exact Hpos].
    rewrite (available_wf cap Hu32' st' Hst'), Havd. unfold cyclic_distance.
    rewrite <- Hs. cbn [g_read_head g_write_head].
    rewrite u32_small by lia. rewrite Zminus_mod_idemp_r.
    rewrite Havd in Hsa, Ha. unfold cyclic_distance in Hsa, Ha.
    symmetry. apply (Z.mod_unique_pos _ _ ((g_write_head st - g_read_head st) / cap)).
    - lia.
    - pose proof (Z.div_mod (g_write_head st - g_read_head st) cap). lia. }
  destruct Hav as [Hav Hpos].
  apply (dropped_iff_full cap st i Hcap Hu32 Hu32' Hst Hm) in Hdrop.
  destruct (cb_outcome cap st' (Some i)) eqn:Hout'; [| |reflexivity].
  - unfold cb_outcome in Hout'. rewrite Hm in Hout'.
    destruct (next_head cap st' i =? g_read_head st'); discriminate.
  - exfalso. apply (dropped_iff_full cap st' i Hcap Hu32 Hu32' Hst' Hm) in Hout'.
    rewrite Hav in Hout'.
    assert (Hk : (Z.of_nat (length out)) mod cap = 0).
    { replace (Z.of_nat (length out))
        with ((available cap st + total_len i)
              - (available cap st - Z.of_nat (length out) + total_len i)) by lia.
      rewrite Zminus_mod, Hdrop, Hout'. reflexivity. }
    rewrite Z.mod_small in Hk by lia. lia.
Qed.

(** X15: when the callback refuses.  For a well-formed frame, if storing it
    would bring the number of occupied bytes to a multiple of the capacity
    the callback returns with the array and both cursors as they were and
    only the counter moved; in every other case, if it returns, the write
    cursor has advanced by the frame size modulo the capacity, does not stand
    on the read cursor, and the frame's header lies in the array where the
    write cursor stood.  So a frame smaller than the ring is refused exactly
    when it is as large as the free space, and one that would leave at least
    one byte free is never refused. *)
Theorem refused_iff_exactly_full (cap : Z) (st : state) (i : wifi_csi_info_t) (now : Z) :
  0 < cap -> cap + 2 ^ 16 <= 2 ^ 32 -> 2 * cap <= 2 ^ 32 ->
  state_wf cap st -> malformed (Some i) = false ->
  let refused := {| g_buffer := g_buffer st;
                    g_write_head := g_write_head st;
                    g_read_head := g_read_head st;
                    g_packet_count := u32 (g_packet_count st + 1) |} in
  ((available cap st + total_len i) mod cap = 0 ->
   wifi_csi_cb cap st (Some i) now = Ok refused) /\
  ((available cap st + total_len i) mod cap <> 0 ->
   forall st', wifi_csi_cb cap st (Some i) now = Ok st' ->
     g_write_head st' = (g_write_head st + total_len i) mod cap /\
     g_write_head st' <> g_read_head st' /\
     take (Z.to_nat sizeof_packet_header_t)
       (drop (Z.to_nat (g_write_head st)) (g_buffer st'))
     = header_bytes (make_header i now)) /\
  (0 < total_len i < cap ->
   (wifi_csi_cb cap st (Some i) now = Ok refused <->
    total_len i = cap - available cap st)) /\
  (0 < total_len i < cap - available cap st ->
   wifi_csi_cb cap st (Some i) now <> Ok refused).
Proof.
  intros Hcap Hu32 Hu32' Hst Hm refused.
  pose proof (dropped_iff_full cap st i Hcap Hu32 Hu32' Hst Hm) as Hiff.
  pose proof (available_range cap Hcap Hu32' st Hst) as Ha.
  destruct (not_malformed_some i Hm) as (p & Hb & Hl).
  assert (Hfull : (available cap st + total_len i) mod cap = 0 ->
                  wifi_csi_cb cap st (Some i) now = Ok refused).
  { intros H0. apply Hiff in H0.
    destruct (cb_outcome_dropped cap st (Some i) H0) as (i' & [= <-] & _ & Hn).
    exact (cb_dropped cap st i p now Hb Hl Hn). }
  assert (Hroom : (available cap st + total_len i) mod cap <> 0 ->
            forall st', wifi_csi_cb cap st (Some i) now = Ok st' ->
              g_write_head st' = (g_write_head st + total_len i) mod cap /\
              g_write_head st' <> g_read_head st' /\
              take (Z.to_nat sizeof_packet_header_t)
                (drop (Z.to_nat (g_write_head st)) (g_buffer st'))
              = header_bytes (make_header i now)).
  { intros H0 st' Hcb.
    assert (Hne : next_head cap st i <> g_read_head st).
    { intros Heq. apply H0, Hiff. unfold cb_outcome. rewrite Hm, Heq, Z.eqb_refl. reflexivity. }
    destruct (cb_stored cap st i now st' Hu32 Hst Hm Hne Hcb) as (Hw' & Hr' & _ & Hh).
    split; [exact Hw'|]. split; [|exact Hh].
    rewrite Hw', Hr', <- (next_head_wf cap Hu32 st i Hst). exact Hne. }
  assert (Hexact : 0 < total_len i < cap ->
            ((available cap st + total_len i) mod cap = 0 <->
             total_len i = cap - available cap st)).
  { intros Ht. split.
    - intros H0. pose proof (Z.div_mod (available cap st + total_len i) cap) as Hdm.
      rewrite H0 in Hdm. specialize (Hdm ltac:(lia)).
      set (q := (available cap st + total_len i) / cap) in *.
      assert (Hq1 : 0 < q) by nia.
      assert (Hq2 : q < 2) by nia.
      nia.
    - intros ->. replace (available cap st + (cap - available cap st)) with cap by lia.
      apply Z_mod_same_full. }
  assert (Hmoved : 0 < total_len i < cap ->
            wifi_csi_cb cap st (Some i) now = Ok refused ->
            (available cap st + total_len i) mod cap = 0).
  { intros Ht Hcb. apply Hiff.
    apply (refused_is_dropped cap st i now Hu32 Hst Hm); [|exact Hcb].
    rewrite Z.mod_small by lia. lia. }
  split; [exact Hfull|]. split; [exact Hroom|]. split.
  - intros Ht. split.
    + intros Hcb. apply Hexact; [exact Ht | exact (Hmoved Ht Hcb)].
    + intros Heq. apply Hfull, Hexact; [exact Ht | exact Heq].
  - intros Ht Hcb.
    assert (Ht' : 0 < total_len i < cap) by lia.
    pose proof (proj1 (Hexact Ht') (Hmoved Ht' Hcb)). lia.
Qed.

Lemma refused_iff_exactly_full_witness :
  let st := {| g_buffer := repeat 0 64; g_write_head := 40; g_read_head := 60;
               g_packet_count := 2 |} in
  (0 < 64 /\ 64 + 2 ^ 16 <= 2 ^ 32 /\ 2 * 64 <= 2 ^ 32 /\ state_wf 64 st /\
   malformed (Some (csi_event 10 7)) = false /\ malformed (Some (csi_event 4 7)) = false) /\
  available 64 st = 44 /\
  total_len (csi_event 10 7) = 20 /\
  wifi_csi_cb 64 st (Some (csi_event 10 7)) 0
  = Ok {| g_buffer := repeat 0 64; g_write_head := 40; g_read_head := 60;
          g_packet_count := 3 |} /\
  total_len (csi_event 4 7) = 14 /\
  (forall st', wifi_csi_cb 64 st (Some (csi_event 4 7)) 0 = Ok st' ->
               g_write_head st' = 54 /\ g_write_head st' <> g_read_head st').
Proof.
  intros st.
  assert (Hst : state_wf 64 st) by (vm_compute; intuition discriminate).
  split.
  { split; [reflexivity|]. split; [discriminate|]. split; [discriminate|].
    split; [exact Hst|]. split; reflexivity. }
  split; [reflexivity|]. split; [reflexivity|].
  destruct (refused_iff_exactly_full 64 st (csi_event 10 7) 0
              ltac:(lia) ltac:(lia) ltac:(lia) Hst eq_refl) as (Hfull & _).
  destruct (refused_iff_exactly_full 64 st (csi_event 4 7) 0
              ltac:(lia) ltac:(lia) ltac:(lia) Hst eq_refl) as (_ & Hroom & _).
  split; [exact (Hfull eq_refl)|].
  split; [reflexivity|].
  intros st' Hcb.
  destruct (Hroom ltac:(discriminate) st' Hcb) as (Hw & Hne & _).
  split; [exact Hw | exact Hne].
Defined.

(** X16: a refusal does not last.  When the callback has refused a frame
    (it returned with the array and the cursors as they were) and a pass of
    the drain loop then sends at least one byte, to a transport that takes no
    more than it is offered, the callback no longer refuses the same frame:
    if it returns, the write cursor has moved, to where the read cursor stood
    when the frame was refused, and the frame's header lies in the array; and
    it does return when the header fits before the physical end of the array
    and the payload is at most 65525 bytes. *)
Theorem refused_frame_accepted_after_drain (cap chunk_size min_send : Z)
    (tr : list Z -> Z) (st st' : state) (out : list Z) (i : wifi_csi_info_t)
    (now now' : Z) :
  0 < cap -> cap + 2 ^ 16 <= 2 ^ 32 -> 2 * cap <= 2 ^ 32 -> 0 <= chunk_size ->
  state_wf cap st ->
  malformed (Some i) = false -> total_len i mod cap <> 0 ->
  wifi_csi_cb cap st (Some i) now
  = Ok {| g_buffer := g_buffer st;
          g_write_head := g_write_head st;
          g_read_head := g_read_head st;
          g_packet_count := u32 (g_packet_count st + 1) |} ->
  (forall c, tr c <= Z.of_nat (length c)) ->
  usb_flush_iter cap chunk_size min_send tr st = Ok (st', out) ->
  out <> [] ->
  wifi_csi_cb cap st' (Some i) now'
  <> Ok {| g_buffer := g_buffer st';
           g_write_head := g_write_head st';
           g_read_head := g_read_head st';
           g_packet_count := u32 (g_packet_count st' + 1) |} /\
  (forall st'', wifi_csi_cb cap st' (Some i) now' = Ok st'' ->
     g_write_head st'' = g_read_head st /\
     g_write_head st'' <> g_write_head st' /\
     take (Z.to_nat sizeof_packet_header_t)
       (drop (Z.to_nat (g_write_head st')) (g_buffer st''))
     = header_bytes (make_header i now')) /\
  (info_wf i -> sizeof_packet_header_t + len i < 2 ^ 16 ->
   g_write_head st + sizeof_packet_header_t <= cap ->
   exists st'', wifi_csi_cb cap st' (Some i) now' = Ok st'').
Proof.
  intros Hcap Hu32 Hu32' Hchunk Hst Hm Hmod Hcb Htr Hrun Hout.
  pose proof (refused_is_dropped cap st i now Hu32 Hst Hm Hmod Hcb) as Hdrop.
  pose proof (stored_after_drain cap chunk_size min_send tr st st' out i
                Hcap Hu32 Hu32' Hchunk Hst Hdrop Htr Hrun Hout) as Hstored.
  pose proof (flush_preserves_wf cap chunk_size min_send Hcap tr st st' out Hst Hrun) as Hst'.
  destruct (cb_outcome_dropped cap st (Some i) Hdrop) as (i1 & [= <-] & _ & Hold).
  destruct (cb_outcome_stored cap st' (Some i) Hstored) as (i2 & [= <-] & _ & Hne).
  assert (Hwsame : g_write_head st' = g_write_head st).
  { unfold usb_flush_iter in Hrun.
    destruct (min_send <? available cap st); [|injection Hrun as <- _; reflexivity].
    destruct (read_chunk cap chunk_size st) as [c|]; [|discriminate]. simpl in Hrun.
    destruct (0 <? tr c); injection Hrun as <- _; reflexivity. }
  rewrite (next_head_wf cap Hu32 st i Hst) in Hold.
  pose proof Hst' as (_ & Hw' & _).
  assert (Hall : forall st'', wifi_csi_cb cap st' (Some i) now' = Ok st'' ->
            g_write_head st'' = g_read_head st /\
            g_write_head st'' <> g_write_head st' /\
            take (Z.to_nat sizeof_packet_header_t)
              (drop (Z.to_nat (g_write_head st')) (g_buffer st''))
            = header_bytes (make_header i now')).
  { intros st'' Hcb'.
    destruct (cb_stored cap st' i now' st'' Hu32 Hst' Hm Hne Hcb') as (Hw'' & _ & _ & Hh).
    split; [rewrite Hw'', Hwsame; exact Hold|]. split; [|exact Hh].
    rewrite Hw''. intros Heq. apply Hmod.
    replace (total_len i) with (g_write_head st' + total_len i - g_write_head st') by lia.
    rewrite Zminus_mod, Heq, (Z.mod_small (g_write_head st')) by lia.
    rewrite Z.sub_diag. apply Z.mod_0_l. lia. }
  split.
  { intros Hcb'. destruct (Hall _ Hcb') as (_ & Hmv & _). apply Hmv. reflexivity. }
  split; [exact Hall|].
  intros Hi Hs Hhdr.
  destruct (not_malformed_some i Hm) as (p & Hb & Hl).
  pose proof (total_len_small i Hi Hs) as Ht.
  destruct (Z_le_gt_dec (g_write_head st' + sizeof_packet_header_t + len i) cap) as [Hfit | Hover].
  - eexists. apply (cb_contiguous cap Hu32 st' i p now' Hst' Hi Hb Hl Hs Hne Hfit).
  - eexists. apply (cb_wrap cap Hu32 st' i p now' Hst' Hb Hl Hne); lia.
Qed.

Lemma refused_frame_accepted_after_drain_witness :
  let st := {| g_buffer := repeat 0 64; g_write_head := 40; g_read_head := 54;
               g_packet_count := 2 |} in
  let i := csi_event 4 7 in
  exists st' out,
    (0 < 64 /\ 64 + 2 ^ 16 <= 2 ^ 32 /\ 2 * 64 <= 2 ^ 32 /\ 0 <= 16 /\
     state_wf 64 st /\ malformed (Some i) = false /\ total_len i mod 64 <> 0 /\
     wifi_csi_cb 64 st (Some i) 0
     = Ok {| g_buffer := g_buffer st; g_write_head := g_write_head st;
             g_read_head := g_read_head st;
             g_packet_count := u32 (g_packet_count st + 1) |} /\
     (forall c, accept_all c <= Z.of_nat (length c)) /\
     usb_flush_iter 64 16 4 accept_all st = Ok (st', out) /\ out <> []) /\
    g_read_head st' = 0 /\
    exists st'', wifi_csi_cb 64 st' (Some i) 1 = Ok st'' /\ g_write_head st'' = 54.
Proof.
  intros st i.
  assert (Hst : state_wf 64 st) by (vm_compute; intuition discriminate).
  assert (Hi : info_wf i) by (apply csi_event_wf; [lia | exact is_byte_7]).
  assert (Htr : forall c, accept_all c <= Z.of_nat (length c)) by (unfold accept_all; lia).
  assert (Hmod : total_len i mod 64 <> 0) by (vm_compute; discriminate).
  destruct (usb_flush_iter 64 16 4 accept_all st) as [[st' out]|] eqn:Hrun;
    [|vm_compute in Hrun; discriminate].
  assert (Hout : out <> []).
  { vm_compute in Hrun. injection Hrun as _ <-. discriminate. }
  exists st', out.
  split.
  { split; [reflexivity|]. split; [discriminate|]. split; [discriminate|].
    split; [discriminate|]. split; [exact Hst|]. split; [reflexivity|].
    split; [exact Hmod|]. split; [reflexivity|].
    split; [exact Htr|]. split; [reflexivity | exact Hout]. }
  split.
  - vm_compute in Hrun. injection Hrun as <- _. reflexivity.
  - destruct (refused_frame_accepted_after_drain 64 16 4 accept_all st st' out i 0 1
                ltac:(lia) ltac:(lia) ltac:(lia) ltac:(lia) Hst eq_refl Hmod eq_refl
                Htr Hrun Hout) as (_ & Hall & Hex).
    destruct (Hex Hi ltac:(reflexivity) ltac:(discriminate)) as (st'' & Hcb).
    exists st''. split; [exact Hcb|].
    destruct (Hall st'' Hcb) as (Hw & _). rewrite Hw. reflexivity.
Defined.
